(** * otp-utils: HOTP / TOTP generation and verification ([src/core.ts])

    A shallow embedding of [core.ts].  A JavaScript [number] is modelled as
    an integer of [Z]: the counters, windows and digit counts the functions
    receive are integer valued, and on integers of magnitude below 2^53 the
    operations [+], [-], [*] and [<=] of the source are exact.  A JavaScript
    string is a [string] (characters of one byte), a [Buffer] a list of
    bytes.  An optional property of an options object is an [option]; the
    object spread [{ ...defaults, ...options }] fills the absent ones.
    [hotpVerify] and [totpVerify] return [Some] result when they return.

    Beyond 2^53 the source rounds: [hotpVerify64] and [totpVerify64] are
    [hotpVerify] and [totpVerify] with every [+], [-] and [*] rounded to
    the nearest double, run on fuel since the loop need not end there.
    They agree with the exact functions on the counters and windows of
    [hotpSafe] and [totpSafe], and the properties of the search are stated
    on them. *)

From Stdlib Require Import ZArith List Bool Lia.
From Stdlib.Strings Require Import String Ascii Byte.
Import ListNotations.

Local Open Scope string_scope.
Local Open Scope Z_scope.

(** ** The types of [./types] and the result type of [core.ts] *)

Inductive Encoding : Set := enc_ascii | enc_hex | enc_base32 | enc_base64.
Inductive Algorithm : Set := sha1 | sha256 | sha512.

Definition Buffer : Set := list byte.

(** [OTPVerificationResult]: [delta?: number] is absent ([None]) or a number. *)
Record OTPVerificationResult : Set := mkResult {
  valid : bool;
  delta : option Z
}.

(** ** Built-ins of the language used by [core.ts] *)

Module JS.

(** One decimal digit, ['0'] .. ['9']. *)
Definition digitChar (d : Z) : ascii := ascii_of_N (48 + Z.to_N d).

(** The decimal digits of a non-negative integer, most significant first,
    put in front of [acc]. *)
Fixpoint digitsOf (fuel : nat) (n : Z) (acc : string) : string :=
  match fuel with
  | O => acc
  | S fuel' =>
      let acc' := String (digitChar (n mod 10)) acc in
      if n <? 10 then acc' else digitsOf fuel' (n / 10) acc'
  end.

(** [Number.prototype.toString()] on an integer of magnitude below 10^21:
    its decimal numeral, with a leading ['-'] when negative, and no leading
    zero. *)
Definition Number_toString (n : Z) : string :=
  if n <? 0
  then String "-" (digitsOf (S (Z.to_nat (Z.log2 (- n)))) (- n) "")
  else digitsOf (S (Z.to_nat (Z.log2 n))) n "".

(** [String.prototype.substr(start)] with the length omitted: a negative
    [start] counts from the end of the string and is clamped at its
    beginning, a non-negative one is clamped at its end; the result runs
    to the end of the string. *)
Definition substr (s : string) (start : Z) : string :=
  let size := Z.of_nat (String.length s) in
  let intStart :=
    if start <? 0 then Z.max (size + start) 0 else Z.min start size in
  String.substring (Z.to_nat intStart) (Z.to_nat (size - intStart)) s.

End JS.

(** ** The option objects of [core.ts] *)

Record HOTPGenerateOptions : Set := mkHOTPGenerateOptions {
  hg_secret : string;
  hg_counter : Z;
  hg_digits : option Z;
  hg_encoding : option Encoding;
  hg_algorithm : option Algorithm
}.

(** The object [{ ...hoptGenerateDefaults, ...options }]: every property
    present.  It is what [hotpGenerate] hands to [hmacHash]. *)
Record HOTPOpts : Set := mkHOTPOpts {
  secret : string;
  counter : Z;
  digits : Z;
  encoding : Encoding;
  algorithm : Algorithm
}.

Record HOTPVerifyOptions : Set := mkHOTPVerifyOptions {
  hv_secret : string;
  hv_counter : Z;
  hv_code : string;
  hv_window : option Z;
  hv_digits : option Z;
  hv_encoding : option Encoding;
  hv_algorithm : option Algorithm
}.

Record TOTPGenerateOptions : Set := mkTOTPGenerateOptions {
  tg_secret : string;
  tg_time : option Z;
  tg_step : option Z;
  tg_digits : option Z;
  tg_encoding : option Encoding;
  tg_algorithm : option Algorithm
}.

Record TOTPVerifyOptions : Set := mkTOTPVerifyOptions {
  tv_secret : string;
  tv_code : string;
  tv_window : option Z;
  tv_time : option Z;
  tv_step : option Z;
  tv_digits : option Z;
  tv_encoding : option Encoding;
  tv_algorithm : option Algorithm
}.

(** The merged option objects: every property with a default is present. *)
Record HOTPVerifyOpts : Set := mkHOTPVerifyOpts {
  vo_secret : string;
  vo_counter : Z;
  vo_code : string;
  vo_window : Z;
  vo_digits : Z;
  vo_encoding : Encoding;
  vo_algorithm : Algorithm
}.

Record TOTPOpts : Set := mkTOTPOpts {
  to_secret : string;
  to_time : option Z;
  to_step : Z;
  to_digits : Z;
  to_encoding : Encoding;
  to_algorithm : Algorithm
}.

Record TOTPVerifyOpts : Set := mkTOTPVerifyOpts {
  tvo_secret : string;
  tvo_code : string;
  tvo_window : Z;
  tvo_time : option Z;
  tvo_step : Z;
  tvo_digits : Z;
  tvo_encoding : Encoding;
  tvo_algorithm : Algorithm
}.

(** [{ ...defaults, ...options }] on one property. *)
Definition orDefault {A : Type} (dflt : A) (given : option A) : A :=
  match given with
  | Some v => v
  | None => dflt
  end.

Module hoptGenerateDefaults.
Definition encoding : Encoding := enc_ascii.
Definition algorithm : Algorithm := sha1.
Definition digits : Z := 6.
End hoptGenerateDefaults.

Module hotpVerifyDefaults.
Definition encoding : Encoding := hoptGenerateDefaults.encoding.
Definition algorithm : Algorithm := hoptGenerateDefaults.algorithm.
Definition digits : Z := hoptGenerateDefaults.digits.
Definition window : Z := 0.
End hotpVerifyDefaults.

Module totpGenerateDefaults.
Definition step : Z := 30.
Definition digits : Z := 6.
Definition encoding : Encoding := enc_ascii.
Definition algorithm : Algorithm := sha1.
End totpGenerateDefaults.

Module totpVerifyDefaults.
Definition step : Z := totpGenerateDefaults.step.
Definition digits : Z := totpGenerateDefaults.digits.
Definition encoding : Encoding := totpGenerateDefaults.encoding.
Definition algorithm : Algorithm := totpGenerateDefaults.algorithm.
Definition window : Z := 0.
End totpVerifyDefaults.

(** ** [core.ts] over the functions it imports from [./internals] *)

(** The three imports of [./internals], as an interface: [hmacHash] reads
    the merged options object, [dynamicTruncate] turns the digest into a
    number, [generateCounterFromTime] turns the optional [time] and the
    [step] into a counter.  An exception raised in one of them ends the
    calling function and is not modelled: the functions are total. *)
Class Internals : Type := {
  hmacHash : HOTPOpts -> Buffer;
  dynamicTruncate : Buffer -> Z;
  generateCounterFromTime : option Z -> Z -> Z
}.

Section Core.

Context `{Imp : Internals}.

(** [const opts = { ...hoptGenerateDefaults, ...options }] *)
Definition hotpGenerate_opts (options : HOTPGenerateOptions) : HOTPOpts :=
  {| secret := hg_secret options;
     counter := hg_counter options;
     digits := orDefault hoptGenerateDefaults.digits (hg_digits options);
     encoding := orDefault hoptGenerateDefaults.encoding (hg_encoding options);
     algorithm := orDefault hoptGenerateDefaults.algorithm (hg_algorithm options) |}.

Definition hotpGenerate (options : HOTPGenerateOptions) : string :=
  let opts := hotpGenerate_opts options in
  let hash := hmacHash opts in
  let code := dynamicTruncate hash in
  JS.substr (JS.Number_toString code) (- digits opts).

(** [const opts = { ...hotpVerifyDefaults, ...options }] *)
Definition hotpVerify_opts (options : HOTPVerifyOptions) : HOTPVerifyOpts :=
  {| vo_secret := hv_secret options;
     vo_counter := hv_counter options;
     vo_code := hv_code options;
     vo_window := orDefault hotpVerifyDefaults.window (hv_window options);
     vo_digits := orDefault hotpVerifyDefaults.digits (hv_digits options);
     vo_encoding := orDefault hotpVerifyDefaults.encoding (hv_encoding options);
     vo_algorithm := orDefault hotpVerifyDefaults.algorithm (hv_algorithm options) |}.

(** The argument [{ ...opts, counter: c }] of the call of [hotpGenerate]
    in the loop ([code] and [window] are no properties [hotpGenerate]
    reads). *)
Definition hotpVerify_candidate (opts : HOTPVerifyOpts) (c : Z)
  : HOTPGenerateOptions :=
  {| hg_secret := vo_secret opts;
     hg_counter := c;
     hg_digits := Some (vo_digits opts);
     hg_encoding := Some (vo_encoding opts);
     hg_algorithm := Some (vo_algorithm opts) |}.

(** The loop [for (let c = opts.counter; c <= opts.counter + opts.window;
    c += 1) { ... }] followed by [return { valid: false }], entered with
    the loop variable at [c].  Each unit of [fuel] pays for one evaluation
    of the loop condition; [None] is a run that needs more.  Beside the
    result the run gives the counters at which it called [hotpGenerate],
    in the order of the calls. *)
Fixpoint hotpVerify_for (fuel : nat) (opts : HOTPVerifyOpts) (c : Z)
  : option (OTPVerificationResult * list Z) :=
  match fuel with
  | O => None
  | S fuel' =>
      if c <=? vo_counter opts + vo_window opts then
        let code := hotpGenerate (hotpVerify_candidate opts c) in
        if String.eqb code (vo_code opts) then
          Some ({| valid := true; delta := Some (c - vo_counter opts) |}, [c])
        else
          match hotpVerify_for fuel' opts (c + 1) with
          | Some (result, calls) => Some (result, c :: calls)
          | None => None
          end
      else Some ({| valid := false; delta := None |}, [])
  end.

(** Evaluations of the loop condition a run of [hotpVerify] can need. *)
Definition hotpVerify_fuel (opts : HOTPVerifyOpts) : nat :=
  S (Z.to_nat (vo_window opts + 1)).

(** [hotpVerify] with the counters of its calls of [hotpGenerate]. *)
Definition hotpVerify_run (options : HOTPVerifyOptions)
  : option (OTPVerificationResult * list Z) :=
  let opts := hotpVerify_opts options in
  hotpVerify_for (hotpVerify_fuel opts) opts (vo_counter opts).

Definition hotpVerify (options : HOTPVerifyOptions)
  : option OTPVerificationResult :=
  option_map fst (hotpVerify_run options).

(** [const opts = { ...totpGenerateDefaults, ...options }] *)
Definition totpGenerate_opts (options : TOTPGenerateOptions) : TOTPOpts :=
  {| to_secret := tg_secret options;
     to_time := tg_time options;
     to_step := orDefault totpGenerateDefaults.step (tg_step options);
     to_digits := orDefault totpGenerateDefaults.digits (tg_digits options);
     to_encoding := orDefault totpGenerateDefaults.encoding (tg_encoding options);
     to_algorithm := orDefault totpGenerateDefaults.algorithm (tg_algorithm options) |}.

Definition totpGenerate (options : TOTPGenerateOptions) : string :=
  let opts := totpGenerate_opts options in
  let counter := generateCounterFromTime (to_time opts) (to_step opts) in
  hotpGenerate
    {| hg_secret := to_secret opts;
       hg_counter := counter;
       hg_digits := Some (to_digits opts);
       hg_encoding := Some (to_encoding opts);
       hg_algorithm := Some (to_algorithm opts) |}.

(** [const opts = { ...totpVerifyDefaults, ...options }] *)
Definition totpVerify_opts (options : TOTPVerifyOptions) : TOTPVerifyOpts :=
  {| tvo_secret := tv_secret options;
     tvo_code := tv_code options;
     tvo_window := orDefault totpVerifyDefaults.window (tv_window options);
     tvo_time := tv_time options;
     tvo_step := orDefault totpVerifyDefaults.step (tv_step options);
     tvo_digits := orDefault totpVerifyDefaults.digits (tv_digits options);
     tvo_encoding := orDefault totpVerifyDefaults.encoding (tv_encoding options);
     tvo_algorithm := orDefault totpVerifyDefaults.algorithm (tv_algorithm options) |}.

(** The argument [{ ...opts, window, counter }] of the call of
    [hotpVerify] in [totpVerify]. *)
Definition totpVerify_hotp (opts : TOTPVerifyOpts) (window counter : Z)
  : HOTPVerifyOptions :=
  {| hv_secret := tvo_secret opts;
     hv_counter := counter;
     hv_code := tvo_code opts;
     hv_window := Some window;
     hv_digits := Some (tvo_digits opts);
     hv_encoding := Some (tvo_encoding opts);
     hv_algorithm := Some (tvo_algorithm opts) |}.

(** [typeof result.delta === 'number'] *)
Definition isNumber (d : option Z) : bool :=
  match d with
  | Some _ => true
  | None => false
  end.

(** [result.delta -= opts.window] *)
Definition subDelta (result : OTPVerificationResult) (w : Z)
  : OTPVerificationResult :=
  {| valid := valid result;
     delta := option_map (fun d => d - w) (delta result) |}.

Definition totpVerify (options : TOTPVerifyOptions)
  : option OTPVerificationResult :=
  let opts := totpVerify_opts options in
  let counter := generateCounterFromTime (tvo_time opts) (tvo_step opts) in
  let counter := counter - tvo_window opts in
  let window := tvo_window opts * 2 in
  match hotpVerify (totpVerify_hotp opts window counter) with
  | None => None
  | Some result =>
      if valid result && isNumber (delta result)
      then Some (subDelta result (tvo_window opts))
      else Some result
  end.

End Core.

(** ** The codecs [generateSecret] takes from the platform *)

(** The encodings of RFC 4648 (base 16, base 32, base 64), which Node's
    [Buffer] and the package [hi-base32] implement: the bytes are read as a
    stream of bits, most significant first, cut in groups of [bitsPerChar]
    bits (the last group filled with zero bits), each group is written as
    the character of its value in the alphabet, and ['='] is added up to a
    multiple of [quantum] characters. *)
Module RFC4648.

Local Open Scope nat_scope.
Local Open Scope list_scope.

(** The value of bits, most significant first. *)
Fixpoint bitsValue (bits : list bool) : nat :=
  match bits with
  | [] => 0
  | b :: bits' => (if b then 2 ^ List.length bits' else 0) + bitsValue bits'
  end.

(** The [k] low bits of [n], most significant first. *)
Fixpoint valueBits (k n : nat) : list bool :=
  match k with
  | O => []
  | S k' =>
      if 2 ^ k' <=? n
      then true :: valueBits k' (n - 2 ^ k')
      else false :: valueBits k' n
  end.

Definition byteBits (b : byte) : list bool :=
  valueBits 8 (N.to_nat (Byte.to_N b)).

Definition bitsByte (bits : list bool) : byte :=
  match Byte.of_N (N.of_nat (bitsValue bits)) with
  | Some b => b
  | None => x00
  end.

Definition padTo (k : nat) (bits : list bool) : list bool :=
  bits ++ repeat false (k - List.length bits).

(** The first [n] groups of [k] bits. *)
Fixpoint chunks (k n : nat) (bits : list bool) : list (list bool) :=
  match n with
  | O => []
  | S n' => padTo k (firstn k bits) :: chunks k n' (skipn k bits)
  end.

(** All the bits in groups of [k], the last one filled up. *)
Definition groupsOf (k : nat) (bits : list bool) : list (list bool) :=
  chunks k ((List.length bits + k - 1) / k) bits.

(** The whole octets of the bits; what is left of them is dropped. *)
Definition octetsOf (bits : list bool) : list (list bool) :=
  chunks 8 (List.length bits / 8) bits.

Fixpoint indexOf (c : ascii) (alphabet : list ascii) : option nat :=
  match alphabet with
  | [] => None
  | a :: alphabet' =>
      if Ascii.eqb a c then Some 0
      else option_map S (indexOf c alphabet')
  end.

Fixpoint mapM {A B : Type} (f : A -> option B) (l : list A) : option (list B) :=
  match l with
  | [] => Some []
  | x :: l' =>
      match f x, mapM f l' with
      | Some y, Some ys => Some (y :: ys)
      | _, _ => None
      end
  end.

Record Alphabet : Set := mkAlphabet {
  bitsPerChar : nat;
  chars : list ascii;
  quantum : nat
}.

Definition isPad (c : ascii) : bool := Ascii.eqb c "="%char.

(** The ['='] characters that fill [n] characters up to a multiple of
    [q]. *)
Definition padding (q n : nat) : list ascii :=
  repeat "="%char ((q - n mod q) mod q).

Definition encodeChars (A : Alphabet) (bs : list byte) : list ascii :=
  map (fun group => nth (bitsValue group) (chars A) "="%char)
      (groupsOf (bitsPerChar A) (flat_map byteBits bs)).

Definition encode (A : Alphabet) (bs : list byte) : string :=
  let cs := encodeChars A bs in
  string_of_list_ascii (cs ++ padding (quantum A) (List.length cs)).

(** Decoding: the padding is skipped and the bits left of the last octet
    are dropped.  A character outside the alphabet is answered with [None];
    what the decoders of the platform do with one is not modelled. *)
Definition decode (A : Alphabet) (s : string) : option (list byte) :=
  let cs := filter (fun c => negb (isPad c)) (list_ascii_of_string s) in
  match
    mapM (fun c => option_map (valueBits (bitsPerChar A)) (indexOf c (chars A))) cs
  with
  | Some groups => Some (map bitsByte (octetsOf (List.concat groups)))
  | None => None
  end.

Definition base16 : Alphabet :=
  mkAlphabet 4 (list_ascii_of_string "0123456789abcdef") 1.

Definition base32 : Alphabet :=
  mkAlphabet 5 (list_ascii_of_string "ABCDEFGHIJKLMNOPQRSTUVWXYZ234567") 8.

Definition base64 : Alphabet :=
  mkAlphabet 6
    (list_ascii_of_string
       "ABCDEFGHIJKLMNOPQRSTUVWXYZabcdefghijklmnopqrstuvwxyz0123456789+/")
    4.

(** What the round trip needs of an alphabet. *)
Record wellFormed (A : Alphabet) : Prop := mkWellFormed {
  wf_bits : 0 < bitsPerChar A <= 8;
  wf_size : List.length (chars A) = 2 ^ bitsPerChar A;
  wf_nodup : NoDup (chars A);
  wf_pad : ~ In "="%char (chars A);
  wf_quantum : 0 < quantum A
}.

End RFC4648.

(** [Buffer.from(s, 'ascii')], [buf.toString('hex')], [buf.toString('base64')]
    and the decoders [Buffer.from(s, 'hex')], [Buffer.from(s, 'base64')]. *)
Module NodeBuffer.

Definition from_ascii (s : string) : Buffer := list_byte_of_string s.
Definition toString_hex (b : Buffer) : string := RFC4648.encode RFC4648.base16 b.
Definition toString_base64 (b : Buffer) : string := RFC4648.encode RFC4648.base64 b.
Definition from_hex (s : string) : option Buffer := RFC4648.decode RFC4648.base16 s.
Definition from_base64 (s : string) : option Buffer :=
  RFC4648.decode RFC4648.base64 s.

End NodeBuffer.

(** [encode] and [decode.asBytes] of the package [hi-base32]. *)
Module hi_base32.

Definition encode (b : Buffer) : string := RFC4648.encode RFC4648.base32 b.
Definition decode_asBytes (s : string) : option Buffer :=
  RFC4648.decode RFC4648.base32 s.

End hi_base32.

(** [s.replace(/=/g, '')]: every ['='] of [s] removed. *)
Fixpoint removePad (s : string) : string :=
  match s with
  | EmptyString => EmptyString
  | String c s' =>
      if RFC4648.isPad c then removePad s' else String c (removePad s')
  end.

(** ** [generateSecret] *)

Record SecretOptions : Set := mkSecretOptions {
  so_length : option Z
}.

Module defaultSecretOptions.
Definition length : Z := 12.
End defaultSecretOptions.

(** [SecretResult]: a string for each [Encoding]. *)
Record SecretResult : Set := mkSecretResult {
  sr_ascii : string;
  sr_hex : string;
  sr_base32 : string;
  sr_base64 : string
}.

Section Secret.

(** [randomstring] of the package [@sidoshi/random-string]; the function
    stands for the draw of one call. *)
Variable randomstring : Z -> string.

Definition generateSecret (options : SecretOptions) : SecretResult :=
  let length := orDefault defaultSecretOptions.length (so_length options) in
  let secret := randomstring length in
  {| sr_ascii := secret;
     sr_hex := NodeBuffer.toString_hex (NodeBuffer.from_ascii secret);
     sr_base32 := removePad (hi_base32.encode (NodeBuffer.from_ascii secret));
     sr_base64 := NodeBuffer.toString_base64 (NodeBuffer.from_ascii secret) |}.

End Secret.

(** ** A model of [./internals] for running [core.ts] on test vectors *)

(** SHA-1 (FIPS 180-4) and HMAC (RFC 2104) over bytes as integers: the hash
    primitive that [hmacHash] takes from the platform. *)
Module SHA1.

Local Open Scope list_scope.

Definition mask32 : Z := 0xFFFFFFFF.
Definition w32 (x : Z) : Z := Z.land x mask32.
Definition add32 (x y : Z) : Z := w32 (x + y).
Definition not32 (x : Z) : Z := Z.lxor x mask32.
Definition rotl (n x : Z) : Z :=
  w32 (Z.lor (Z.shiftl x n) (Z.shiftr x (32 - n))).

(** Big-endian bytes of [x], [n] of them. *)
Fixpoint be_bytes (n : nat) (x : Z) : list Z :=
  match n with
  | O => []
  | S n' => Z.land (Z.shiftr x (8 * Z.of_nat n')) 0xFF :: be_bytes n' x
  end.

(** Big-endian value of a list of bytes. *)
Definition be_value (bs : list Z) : Z :=
  fold_left (fun acc b => Z.lor (Z.shiftl acc 8) b) bs 0.

(** Message padding: a one bit, zeros, the bit length on 64 bits. *)
Definition pad (msg : list Z) : list Z :=
  let len := Z.of_nat (List.length msg) in
  let zeros := Z.to_nat ((55 - len) mod 64) in
  msg ++ 0x80 :: repeat 0 zeros ++ be_bytes 8 (8 * len).

Fixpoint words (n : nat) (bs : list Z) : list Z :=
  match n with
  | O => []
  | S n' => be_value (firstn 4 bs) :: words n' (skipn 4 bs)
  end.

Fixpoint blocks (n : nat) (bs : list Z) : list (list Z) :=
  match n with
  | O => []
  | S n' => words 16 (firstn 64 bs) :: blocks n' (skipn 64 bs)
  end.

Definition f (t : Z) (b c d : Z) : Z :=
  if t <? 20 then Z.lor (Z.land b c) (Z.land (not32 b) d)
  else if t <? 40 then Z.lxor (Z.lxor b c) d
  else if t <? 60 then Z.lor (Z.lor (Z.land b c) (Z.land b d)) (Z.land c d)
  else Z.lxor (Z.lxor b c) d.

Definition K (t : Z) : Z :=
  if t <? 20 then 0x5A827999
  else if t <? 40 then 0x6ED9EBA1
  else if t <? 60 then 0x8F1BBCDC
  else 0xCA62C1D6.

Definition state : Set := (Z * Z * Z * Z * Z)%type.

(** [n] rounds from round [t]; [ws] holds the schedule words
    [W t .. W (t+15)]. *)
Fixpoint rounds (n : nat) (t : Z) (ws : list Z) (s : state) : state :=
  match n with
  | O => s
  | S n' =>
      let '(a, b, c, d, e) := s in
      let w := nth 0 ws 0 in
      let next :=
        rotl 1 (Z.lxor (Z.lxor (nth 13 ws 0) (nth 8 ws 0))
                       (Z.lxor (nth 2 ws 0) (nth 0 ws 0))) in
      let temp :=
        add32 (add32 (add32 (add32 (rotl 5 a) (f t b c d)) e) w) (K t) in
      rounds n' (t + 1) (tl ws ++ [next]) (temp, a, rotl 30 b, c, d)
  end.

Definition compress (s : state) (block : list Z) : state :=
  let '(a0, b0, c0, d0, e0) := s in
  let '(a, b, c, d, e) := rounds 80 0 block s in
  (add32 a0 a, add32 b0 b, add32 c0 c, add32 d0 d, add32 e0 e).

Definition init : state :=
  (0x67452301, 0xEFCDAB89, 0x98BADCFE, 0x10325476, 0xC3D2E1F0).

Definition hash (msg : list Z) : list Z :=
  let padded := pad msg in
  let '(a, b, c, d, e) :=
    fold_left compress (blocks (List.length padded / 64) padded) init in
  be_bytes 4 a ++ be_bytes 4 b ++ be_bytes 4 c ++ be_bytes 4 d ++ be_bytes 4 e.

Definition hmac (key msg : list Z) : list Z :=
  let key' := if (64 <? List.length key)%nat then hash key else key in
  let key'' := key' ++ repeat 0 (64 - List.length key') in
  hash (map (Z.lxor 0x5C) key'' ++ hash (map (Z.lxor 0x36) key'' ++ msg)).

End SHA1.

Module Model.

Definition bytesToZ (b : Buffer) : list Z :=
  map (fun x => Z.of_N (Byte.to_N x)) b.

Definition bytesOfZ (l : list Z) : Buffer :=
  map (fun x => match Byte.of_N (Z.to_N x) with
                | Some b => b
                | None => x00
                end) l.

(** Modelled from the spec: [hmacHash] of [./internals], which is not
    among the sources, at [algorithm: 'sha1'] and [encoding: 'ascii'], the
    defaults: the HMAC-SHA-1 of the counter as 8 big-endian bytes, keyed
    by the bytes of the secret.  The other algorithms and encodings are
    not modelled: this function answers for them as for the defaults and
    is used here at the defaults only. *)
Definition hmacHash (opts : HOTPOpts) : Buffer :=
  bytesOfZ
    (SHA1.hmac (bytesToZ (list_byte_of_string (secret opts)))
               (SHA1.be_bytes 8 (counter opts))).

(** Modelled from the spec: [dynamicTruncate] of [./internals] (RFC 4226,
    5.3): the four bytes at the offset given by the low nibble of the last
    byte, big-endian, without the top bit.  A byte beyond the end of the
    digest reads as 0 here. *)
Definition dynamicTruncate (hash : Buffer) : Z :=
  let bs := bytesToZ hash in
  let offset := Z.land (last bs 0) 0x0F in
  Z.land (SHA1.be_value (firstn 4 (skipn (Z.to_nat offset) bs))) 0x7FFFFFFF.

(** Modelled from the spec: [generateCounterFromTime] of [./internals]:
    [floor(time / step)], the time being [now] when the caller gives
    none. *)
Definition generateCounterFromTime (now : Z) (time : option Z) (step : Z) : Z :=
  orDefault now time / step.

(** The interface, at the time [now]. *)
Definition internals (now : Z) : Internals :=
  Build_Internals hmacHash dynamicTruncate (generateCounterFromTime now).

End Model.

(** The secret of the test vectors of RFC 4226, appendix D, and the model
    at the time 59 of the first test vector of RFC 6238. *)
Definition rfc4226_secret : string := "12345678901234567890".

Definition rfc4226 : Internals := Model.internals 59.

(** ** What the specification says, for comparison *)

(** The number of decimal digits of a non-negative integer (1 for 0). *)
Fixpoint decimalDigits_aux (fuel : nat) (n : Z) : Z :=
  match fuel with
  | O => 0
  | S fuel' => if n <? 10 then 1 else 1 + decimalDigits_aux fuel' (n / 10)
  end.

Definition decimalDigits (n : Z) : Z :=
  decimalDigits_aux (S (Z.to_nat (Z.log2 n))) n.

(** [s] with ['0'] put in front until it has [width] characters. *)
Definition padStart0 (width : Z) (s : string) : string :=
  string_of_list_ascii
    (repeat "0"%char (Z.to_nat (width - Z.of_nat (String.length s))))
  ++ s.

(** The Decimal Formatter as the specification words it: the value modulo
    [10^digits], in decimal, left-padded with zeros to [digits] characters. *)
Definition spec_format (value digits : Z) : string :=
  padStart0 digits (JS.Number_toString (value mod 10 ^ digits)).

(** The counters [c], [c+1], ..., [n] of them. *)
Fixpoint countersFrom (c : Z) (n : nat) : list Z :=
  match n with
  | O => []
  | S n' => c :: countersFrom (c + 1) n'
  end.

(** The options with which [hotpVerify] generates the code at counter [c]:
    those of the caller, with the counter replaced. *)
Definition generateAt (options : HOTPVerifyOptions) (c : Z)
  : HOTPGenerateOptions :=
  {| hg_secret := hv_secret options;
     hg_counter := c;
     hg_digits := hv_digits options;
     hg_encoding := hv_encoding options;
     hg_algorithm := hv_algorithm options |}.

(** HOTP Verify as the specification words it, for the codes [gen c] of the
    counters, the submitted [code], and the counters [calls] at which a
    code is generated: the first counter of [counter .. counter + window]
    whose code is the submitted one gives the result, with the counters up
    to it visited in increasing order; without one, all are visited and the
    result is invalid. *)
Inductive firstMatch (gen : Z -> string) (code : string) (counter window : Z)
  : OTPVerificationResult -> list Z -> Prop :=
| firstMatch_found (c : Z) :
    counter <= c <= counter + window ->
    gen c = code ->
    (forall j, counter <= j < c -> gen j <> code) ->
    firstMatch gen code counter window
      {| valid := true; delta := Some (c - counter) |}
      (countersFrom counter (Z.to_nat (c - counter + 1)))
| firstMatch_none :
    (forall j, counter <= j <= counter + window -> gen j <> code) ->
    firstMatch gen code counter window
      {| valid := false; delta := None |}
      (countersFrom counter (Z.to_nat (window + 1))).

(** Base 32 padding put back: ['='] up to a multiple of 8 characters. *)
Definition base32_repad (s : string) : string :=
  s ++ string_of_list_ascii (RFC4648.padding 8 (String.length s)).

(** ** Predicates on the characters of a string *)

(** ['0'] .. ['9']. *)
Definition isDecimalDigit (c : ascii) : bool :=
  ((48 <=? N_of_ascii c) && (N_of_ascii c <=? 57))%N.

(** Every character of [s] satisfies [p]. *)
Fixpoint forallChars (p : ascii -> bool) (s : string) : bool :=
  match s with
  | EmptyString => true
  | String c s' => p c && forallChars p s'
  end.

(** [c] is a character of the alphabet. *)
Definition inAlphabet (A : RFC4648.Alphabet) (c : ascii) : bool :=
  existsb (Ascii.eqb c) (RFC4648.chars A).

(** ** [hotpVerify] and [totpVerify] with the arithmetic of doubles *)

(** The numbers of the source are IEEE 754 doubles.  On integers the
    operations [+], [-] and [*] give the exact result rounded to the
    nearest double, to the one with the even significand when two are
    nearest; a result of magnitude up to 2^53 is not changed.  Magnitudes
    of 2^1024 and more, where the double is an infinity, are left out. *)
Module Float64.

(** [n >= 0] with its [e] low bits rounded away: the multiple of [2^e]
    nearest to [n], the even one of two nearest. *)
Definition roundEven (n e : Z) : Z :=
  let q := n / 2 ^ e in
  let r := n mod 2 ^ e in
  let half := 2 ^ (e - 1) in
  let q' := if (half <? r) || ((r =? half) && Z.odd q) then q + 1 else q in
  q' * 2 ^ e.

(** The double nearest to the integer [n]: [n] below 2^53, and above it
    the integer with the 53 leading bits of [n], rounded. *)
Definition toDouble (n : Z) : Z :=
  let a := Z.abs n in
  if a <? 2 ^ 53 then n else Z.sgn n * roundEven a (Z.log2 a - 52).

Definition add (x y : Z) : Z := toDouble (x + y).
Definition sub (x y : Z) : Z := toDouble (x - y).
Definition mul (x y : Z) : Z := toDouble (x * y).

End Float64.

(** A run that is given fuel returns [a] when some amount of fuel suffices,
    and does not return when none does. *)
Definition returns {A : Type} (run : nat -> option A) (a : A) : Prop :=
  exists fuel, run fuel = Some a.

Definition diverges {A : Type} (run : nat -> option A) : Prop :=
  forall fuel, run fuel = None.

Section Core64.

Context `{Imp : Internals}.

(** The loop of [hotpVerify] on doubles: [opts.counter + opts.window],
    [c - opts.counter] and [c += 1] are rounded.  The counter and the window
    of [opts] are integer-valued doubles. *)
Fixpoint hotpVerify_for64 (fuel : nat) (opts : HOTPVerifyOpts) (c : Z)
  : option (OTPVerificationResult * list Z) :=
  match fuel with
  | O => None
  | S fuel' =>
      if c <=? Float64.add (vo_counter opts) (vo_window opts) then
        let code := hotpGenerate (hotpVerify_candidate opts c) in
        if String.eqb code (vo_code opts) then
          Some ({| valid := true;
                   delta := Some (Float64.sub c (vo_counter opts)) |}, [c])
        else
          match hotpVerify_for64 fuel' opts (Float64.add c 1) with
          | Some (result, calls) => Some (result, c :: calls)
          | None => None
          end
      else Some ({| valid := false; delta := None |}, [])
  end.

(** [hotpVerify] on doubles, with the counters of its calls of
    [hotpGenerate], and without them. *)
Definition hotpVerify_run64 (fuel : nat) (options : HOTPVerifyOptions)
  : option (OTPVerificationResult * list Z) :=
  let opts := hotpVerify_opts options in
  hotpVerify_for64 fuel opts (vo_counter opts).

Definition hotpVerify64 (fuel : nat) (options : HOTPVerifyOptions)
  : option OTPVerificationResult :=
  option_map fst (hotpVerify_run64 fuel options).

(** [result.delta -= opts.window] on doubles. *)
Definition subDelta64 (result : OTPVerificationResult) (w : Z)
  : OTPVerificationResult :=
  {| valid := valid result;
     delta := option_map (fun d => Float64.sub d w) (delta result) |}.

(** [totpVerify] on doubles: [counter -= opts.window], [opts.window * 2]
    and [result.delta -= opts.window] are rounded.  The counter that
    [generateCounterFromTime] returns and the window are integer-valued
    doubles. *)
Definition totpVerify64 (fuel : nat) (options : TOTPVerifyOptions)
  : option OTPVerificationResult :=
  let opts := totpVerify_opts options in
  let counter := generateCounterFromTime (tvo_time opts) (tvo_step opts) in
  let counter := Float64.sub counter (tvo_window opts) in
  let window := Float64.mul (tvo_window opts) 2 in
  match hotpVerify64 fuel (totpVerify_hotp opts window counter) with
  | None => None
  | Some result =>
      if valid result && isNumber (delta result)
      then Some (subDelta64 result (tvo_window opts))
      else Some result
  end.

End Core64.

(** The counters and windows on which the arithmetic of [hotpVerify] is
    exact: every counter visited, the bound of the loop and every delta are
    integers of magnitude up to 2^53. *)
Definition hotpSafe (counter window : Z) : Prop :=
  - 2 ^ 53 < counter /\ counter + window < 2 ^ 53 /\ window <= 2 ^ 53.

(** The same for [totpVerify], [counter0] being the counter of the time:
    the search runs from [counter0 - window] over [2 * window] counters. *)
Definition totpSafe (counter0 window : Z) : Prop :=
  - 2 ^ 53 < counter0 - Z.abs window /\
  counter0 + Z.abs window < 2 ^ 53 /\
  Z.abs window <= 2 ^ 52.

(** * Properties *)

(** ** Strings and numerals *)

Lemma length_substring (s : string) : forall n m,
  String.length (String.substring n m s) = Nat.min m (String.length s - n).
Proof.
  induction s as [|ch s IH]; intros [|n] [|m]; simpl; try reflexivity.
  - now rewrite IH, Nat.sub_0_r.
  - apply IH.
  - apply IH.
Qed.

Lemma substring_whole (s : string) :
  String.substring 0 (String.length s) s = s.
Proof.
  induction s as [|ch s IH]; simpl; [reflexivity | now rewrite IH].
Qed.

Lemma length_substr_neg (s : string) (start : Z) :
  start < 0 ->
  Z.of_nat (String.length (JS.substr s start))
  = Z.min (Z.of_nat (String.length s)) (- start).
Proof.
  intros Hneg. unfold JS.substr.
  destruct (Z.ltb_spec start 0) as [_|]; [|lia].
  rewrite length_substring. lia.
Qed.

Lemma substr_neg_short (s : string) (start : Z) :
  start < 0 -> Z.of_nat (String.length s) <= - start ->
  JS.substr s start = s.
Proof.
  intros Hneg Hshort. unfold JS.substr.
  destruct (Z.ltb_spec start 0) as [_|]; [|lia].
  replace (Z.max (Z.of_nat (String.length s) + start) 0) with 0 by lia.
  rewrite Z.sub_0_r, Nat2Z.id. apply substring_whole.
Qed.

Lemma substr_zero (s : string) : JS.substr s 0 = s.
Proof.
  unfold JS.substr. simpl.
  replace (Z.min 0 (Z.of_nat (String.length s))) with 0 by lia.
  rewrite Z.sub_0_r, Nat2Z.id. apply substring_whole.
Qed.

Lemma length_digitsOf : forall fuel n acc,
  0 <= n < 2 ^ Z.of_nat fuel ->
  Z.of_nat (String.length (JS.digitsOf fuel n acc))
  = decimalDigits_aux fuel n + Z.of_nat (String.length acc).
Proof.
  induction fuel as [|fuel IH]; intros n acc Hn.
  - reflexivity.
  - cbn [JS.digitsOf decimalDigits_aux].
    destruct (Z.ltb_spec n 10) as [Hlt|Hge].
    + cbn [String.length]. lia.
    + rewrite IH.
      * cbn [String.length]. lia.
      * rewrite Nat2Z.inj_succ, Z.pow_succ_r in Hn by lia.
        split; [apply Z.div_pos; lia|].
        apply Z.div_lt_upper_bound; lia.
Qed.

Lemma log2_fuel (n : Z) : 0 <= n -> 0 <= n < 2 ^ Z.of_nat (S (Z.to_nat (Z.log2 n))).
Proof.
  intros Hn. split; [assumption|].
  rewrite Nat2Z.inj_succ, Z2Nat.id by apply Z.log2_nonneg.
  destruct (Z.eq_dec n 0) as [->|Hnz]; [reflexivity|].
  apply Z.log2_spec. lia.
Qed.

Lemma length_Number_toString (n : Z) :
  0 <= n ->
  Z.of_nat (String.length (JS.Number_toString n)) = decimalDigits n.
Proof.
  intros Hn. unfold JS.Number_toString, decimalDigits.
  destruct (Z.ltb_spec n 0) as [|_]; [lia|].
  rewrite length_digitsOf by now apply log2_fuel.
  simpl. lia.
Qed.

(** [decimalDigits n] is the [k] with [10^(k-1) <= n < 10^k] (and 1 at 0). *)
Lemma decimalDigits_aux_spec : forall fuel n,
  (0 < fuel)%nat ->
  0 <= n < 2 ^ Z.of_nat fuel ->
  1 <= decimalDigits_aux fuel n /\
  n < 10 ^ decimalDigits_aux fuel n /\
  (n = 0 \/ 10 ^ (decimalDigits_aux fuel n - 1) <= n).
Proof.
  induction fuel as [|fuel IH]; intros n Hfuel Hn.
  - lia.
  - cbn [decimalDigits_aux].
    destruct (Z.ltb_spec n 10) as [Hlt|Hge].
    + simpl. lia.
    + assert (Hq : 0 <= n / 10 < 2 ^ Z.of_nat fuel).
      { rewrite Nat2Z.inj_succ, Z.pow_succ_r in Hn by lia.
        split; [apply Z.div_pos; lia|].
        apply Z.div_lt_upper_bound; lia. }
      assert (Hpos : (0 < fuel)%nat).
      { destruct fuel; [|lia]. simpl in Hq.
        assert (1 <= n / 10) by (apply Z.div_le_lower_bound; lia). lia. }
      destruct (IH _ Hpos Hq) as (H1 & H2 & H3).
      set (k := decimalDigits_aux fuel (n / 10)) in *.
      pose proof (Z.div_mod n 10 ltac:(lia)) as Hdm.
      pose proof (Z.mod_pos_bound n 10 ltac:(lia)) as Hmod.
      replace (1 + k - 1) with k by lia.
      replace (1 + k) with (Z.succ k) by lia.
      rewrite Z.pow_succ_r by lia.
      split; [lia|]. split; [lia|]. right.
      destruct H3 as [H3|H3]; [lia|].
      replace k with (Z.succ (k - 1)) by lia.
      rewrite Z.pow_succ_r by lia. lia.
Qed.

Lemma decimalDigits_spec (n : Z) :
  0 <= n ->
  1 <= decimalDigits n /\
  n < 10 ^ decimalDigits n /\
  (n = 0 \/ 10 ^ (decimalDigits n - 1) <= n).
Proof.
  intros Hn. apply decimalDigits_aux_spec; [lia | now apply log2_fuel].
Qed.

(** ** Where the code formats as the specification does *)

Lemma append_assoc (s t u : string) : ((s ++ t) ++ u = s ++ (t ++ u))%string.
Proof. induction s as [|c s IH]; simpl; [reflexivity | now rewrite IH]. Qed.

Lemma length_append (s t : string) :
  String.length (s ++ t) = (String.length s + String.length t)%nat.
Proof. induction s as [|c s IH]; simpl; [reflexivity | now rewrite IH]. Qed.

Lemma length_zero_empty (s : string) : String.length s = 0%nat -> s = "".
Proof. destruct s; [reflexivity | discriminate]. Qed.

Lemma digitsOf_acc : forall fuel n acc,
  JS.digitsOf fuel n acc = (JS.digitsOf fuel n "" ++ acc)%string.
Proof.
  induction fuel as [|fuel IH]; intros n acc; [reflexivity|].
  cbn [JS.digitsOf]. destruct (n <? 10); [reflexivity|].
  rewrite IH, (IH _ (String _ "")), append_assoc. reflexivity.
Qed.

Lemma digitsOf_fuel : forall fuel1 fuel2 n acc,
  0 <= n < 2 ^ Z.of_nat (S fuel1) ->
  n < 2 ^ Z.of_nat (S fuel2) ->
  JS.digitsOf (S fuel1) n acc = JS.digitsOf (S fuel2) n acc.
Proof.
  induction fuel1 as [|fuel1 IH]; intros fuel2 n acc Hn1 Hn2.
  - cbn [JS.digitsOf]. change (2 ^ Z.of_nat 1) with 2 in Hn1.
    destruct (Z.ltb_spec n 10); [reflexivity | lia].
  - cbn [JS.digitsOf] in *.
    destruct (Z.ltb_spec n 10) as [Hlt|Hge]; [reflexivity|].
    destruct fuel2 as [|fuel2].
    { change (2 ^ Z.of_nat 1) with 2 in Hn2. lia. }
    rewrite Nat2Z.inj_succ, Z.pow_succ_r in Hn1, Hn2 by lia.
    fold (JS.digitsOf (S fuel1)). fold (JS.digitsOf (S fuel2)).
    apply IH.
    + split; [apply Z.div_pos; lia | apply Z.div_lt_upper_bound; lia].
    + apply Z.div_lt_upper_bound; lia.
Qed.

Lemma Number_toString_small (v : Z) :
  0 <= v < 10 -> JS.Number_toString v = String (JS.digitChar v) "".
Proof.
  intros Hv. unfold JS.Number_toString.
  destruct (Z.ltb_spec v 0); [lia|]. cbn [JS.digitsOf].
  destruct (Z.ltb_spec v 10); [|lia].
  now rewrite Z.mod_small by lia.
Qed.

Lemma Number_toString_step (v : Z) :
  10 <= v ->
  JS.Number_toString v
  = (JS.Number_toString (v / 10) ++ String (JS.digitChar (v mod 10)) "")%string.
Proof.
  intros Hv. unfold JS.Number_toString.
  assert (Hq : 1 <= v / 10) by (apply Z.div_le_lower_bound; lia).
  destruct (Z.ltb_spec v 0); [lia|].
  destruct (Z.ltb_spec (v / 10) 0); [lia|].
  cbn [JS.digitsOf]. destruct (Z.ltb_spec v 10); [lia|].
  rewrite digitsOf_acc. f_equal.
  pose proof (log2_fuel v ltac:(lia)) as Hfuel.
  pose proof (log2_fuel (v / 10) ltac:(lia)) as Hfuelq.
  destruct (Z.to_nat (Z.log2 v)) as [|fuel] eqn:Hlog.
  { change (2 ^ Z.of_nat 1) with 2 in Hfuel. lia. }
  apply digitsOf_fuel.
  - rewrite (Nat2Z.inj_succ (S fuel)), Z.pow_succ_r in Hfuel by lia.
    split; [lia | apply Z.div_lt_upper_bound; lia].
  - apply Hfuelq.
Qed.

Lemma substring_snoc (c : ascii) : forall s n,
  (n <= String.length s)%nat ->
  String.substring n (S (String.length s) - n) (s ++ String c "")
  = (String.substring n (String.length s - n) s ++ String c "")%string.
Proof.
  induction s as [|a s IH]; intros n Hn.
  - simpl in Hn. replace n with O by lia. reflexivity.
  - destruct n as [|n].
    + specialize (IH O ltac:(lia)). rewrite !Nat.sub_0_r in *.
      cbn [String.length String.append String.substring]. now rewrite IH.
    + simpl in Hn. specialize (IH n ltac:(lia)).
      cbn [String.length String.append String.substring Nat.sub].
      destruct n; exact IH.
Qed.

Lemma substr_snoc (s : string) (c : ascii) (d : Z) :
  2 <= d ->
  JS.substr (s ++ String c "") (- d)
  = (JS.substr s (- (d - 1)) ++ String c "")%string.
Proof.
  intros Hd. unfold JS.substr.
  destruct (Z.ltb_spec (- d) 0); [|lia].
  destruct (Z.ltb_spec (- (d - 1)) 0); [|lia].
  rewrite length_append. cbn [String.length].
  set (len := String.length s).
  replace (Z.max (Z.of_nat (len + 1) + - d) 0)
    with (Z.max (Z.of_nat len + - (d - 1)) 0) by lia.
  set (n := Z.to_nat (Z.max (Z.of_nat len + - (d - 1)) 0)).
  replace (Z.to_nat (Z.of_nat (len + 1) - Z.max (Z.of_nat len + - (d - 1)) 0))
    with (S len - n)%nat by lia.
  replace (Z.to_nat (Z.of_nat len - Z.max (Z.of_nat len + - (d - 1)) 0))
    with (len - n)%nat by lia.
  apply substring_snoc. lia.
Qed.

Lemma substr_snoc_last (s : string) (c : ascii) :
  JS.substr (s ++ String c "") (- 1) = String c "".
Proof.
  unfold JS.substr. cbn [Z.ltb Z.opp Z.compare].
  rewrite length_append. cbn [String.length].
  set (len := String.length s).
  replace (Z.to_nat (Z.max (Z.of_nat (len + 1) + -1) 0)) with len by lia.
  replace (Z.to_nat (Z.of_nat (len + 1) - Z.max (Z.of_nat (len + 1) + -1) 0))
    with (S len - len)%nat by lia.
  subst len. rewrite substring_snoc by lia.
  rewrite (length_zero_empty (String.substring _ _ s)); [reflexivity|].
  rewrite length_substring. lia.
Qed.

Lemma zeros_snoc (n : nat) :
  string_of_list_ascii (repeat "0"%char (S n))
  = (string_of_list_ascii (repeat "0"%char n) ++ "0")%string.
Proof. induction n as [|n IH]; [reflexivity|]. simpl in *. now rewrite IH. Qed.

Lemma padStart0_snoc (width : Z) (s : string) (c : ascii) :
  padStart0 (width + 1) (s ++ String c "")
  = (padStart0 width s ++ String c "")%string.
Proof.
  unfold padStart0. rewrite length_append, append_assoc. cbn [String.length].
  do 3 f_equal. lia.
Qed.

Lemma padStart0_zero (width : Z) (c : ascii) :
  1 <= width ->
  (padStart0 width "0" ++ String c "")%string
  = padStart0 (width + 1) (String c "").
Proof.
  intros Hwidth. unfold padStart0. cbn [String.length].
  replace (Z.to_nat (width + 1 - Z.of_nat 1)) with (S (Z.to_nat (width - Z.of_nat 1)))
    by lia.
  rewrite zeros_snoc, !append_assoc. reflexivity.
Qed.

Lemma spec_format_step (value width : Z) :
  0 <= value -> 1 <= width ->
  spec_format value (width + 1)
  = (spec_format (value / 10) width
     ++ String (JS.digitChar (value mod 10)) "")%string.
Proof.
  intros Hvalue Hwidth. unfold spec_format.
  assert (Hpow : 0 < 10 ^ width) by (apply Z.pow_pos_nonneg; lia).
  assert (Hsplit : value mod 10 ^ (width + 1)
                   = value mod 10 + 10 * ((value / 10) mod 10 ^ width)).
  { rewrite Z.pow_add_r, Z.mul_comm by lia. change (10 ^ 1) with 10.
    apply Z.rem_mul_r; lia. }
  pose proof (Z.mod_pos_bound value 10 ltac:(lia)) as Hr.
  pose proof (Z.mod_pos_bound (value / 10) (10 ^ width) Hpow) as Hq.
  set (w := value mod 10 ^ (width + 1)) in *.
  set (r := value mod 10) in *.
  set (q := (value / 10) mod 10 ^ width) in *.
  assert (Hwq : w / 10 = q) by (symmetry; apply Z.div_unique with r; lia).
  assert (Hwr : w mod 10 = r) by (symmetry; apply Z.mod_unique with q; lia).
  destruct (Z_lt_le_dec w 10) as [Hsmall|Hbig].
  - assert (q = 0) as -> by lia. assert (w = r) as -> by lia.
    rewrite (Number_toString_small r) by lia.
    rewrite (Number_toString_small 0) by lia.
    change (String (JS.digitChar 0) "") with "0".
    symmetry. now apply padStart0_zero.
  - rewrite (Number_toString_step w Hbig), Hwq, Hwr.
    apply padStart0_snoc.
Qed.

(** The last [digits] characters of the numeral of a value that has at
    least [digits] decimal digits are the value modulo [10^digits], padded
    with zeros. *)
Lemma substr_Number_toString_spec_format : forall (k : nat) (value : Z),
  10 ^ Z.of_nat k <= value ->
  JS.substr (JS.Number_toString value) (- (Z.of_nat k + 1))
  = spec_format value (Z.of_nat k + 1).
Proof.
  induction k as [|k IH]; intros value Hvalue.
  - change (10 ^ Z.of_nat 0) with 1 in Hvalue. change (Z.of_nat 0 + 1) with 1.
    assert (Hfmt : spec_format value 1 = String (JS.digitChar (value mod 10)) "").
    { unfold spec_format. change (10 ^ 1) with 10.
      pose proof (Z.mod_pos_bound value 10 ltac:(lia)).
      now rewrite Number_toString_small by lia. }
    rewrite Hfmt.
    destruct (Z_lt_le_dec value 10) as [Hsmall|Hbig].
    + rewrite Number_toString_small, Z.mod_small by lia.
      apply substr_neg_short; simpl; lia.
    + rewrite (Number_toString_step value Hbig). apply substr_snoc_last.
  - rewrite Nat2Z.inj_succ, Z.pow_succ_r in Hvalue by lia.
    assert (Hpow : 0 < 10 ^ Z.of_nat k) by (apply Z.pow_pos_nonneg; lia).
    rewrite Nat2Z.inj_succ.
    rewrite (Number_toString_step value) by lia.
    rewrite substr_snoc by lia.
    replace (Z.succ (Z.of_nat k) + 1 - 1) with (Z.of_nat k + 1) by lia.
    rewrite IH by (apply Z.div_le_lower_bound; lia).
    replace (Z.succ (Z.of_nat k) + 1) with (Z.of_nat k + 1 + 1) by lia.
    rewrite (spec_format_step value (Z.of_nat k + 1)) by lia. reflexivity.
Qed.

(** ** The search loop of [hotpVerify] *)

Section Verify.

Context `{Imp : Internals}.

(** The defaults of [hotpVerify] are those of [hotpGenerate]: the code of
    a candidate counter is the one the caller's options give. *)
Lemma hotpGenerate_candidate (options : HOTPVerifyOptions) (c : Z) :
  hotpGenerate (hotpVerify_candidate (hotpVerify_opts options) c)
  = hotpGenerate (generateAt options c).
Proof. reflexivity. Qed.

Lemma countersFrom_succ (c : Z) (n : nat) :
  countersFrom c (S n) = c :: countersFrom (c + 1) n.
Proof. reflexivity. Qed.

Lemma countersFrom_ge (c : Z) (n : nat) :
  Forall (fun x => c <= x < c + Z.of_nat n) (countersFrom c n).
Proof.
  revert c. induction n as [|n IH]; intros c; [constructor|].
  rewrite countersFrom_succ. constructor; [lia|].
  eapply Forall_impl; [|apply IH]. simpl. intros x Hx. lia.
Qed.

(** With fuel for every evaluation of its condition the loop entered at
    [c] stops: at the first counter from [c] on whose code is the
    submitted one, or past [counter + window]. *)
Lemma hotpVerify_for_spec (opts : HOTPVerifyOpts) :
  let gen c := hotpGenerate (hotpVerify_candidate opts c) in
  let hi := vo_counter opts + vo_window opts in
  forall fuel c,
    (Z.to_nat (hi + 1 - c) < fuel)%nat ->
    (exists m,
        c <= m <= hi /\ gen m = vo_code opts /\
        (forall j, c <= j < m -> gen j <> vo_code opts) /\
        hotpVerify_for fuel opts c
        = Some ({| valid := true; delta := Some (m - vo_counter opts) |},
                countersFrom c (Z.to_nat (m - c + 1))))
    \/ ((forall j, c <= j <= hi -> gen j <> vo_code opts) /\
        hotpVerify_for fuel opts c
        = Some ({| valid := false; delta := None |},
                countersFrom c (Z.to_nat (hi + 1 - c)))).
Proof.
  intros gen hi. induction fuel as [|fuel IH]; intros c Hfuel; [lia|].
  cbn [hotpVerify_for]. fold hi. fold (gen c).
  destruct (Z.leb_spec c hi) as [Hle|Hgt].
  - destruct (String.eqb_spec (gen c) (vo_code opts)) as [Heq|Hne].
    + left. exists c. replace (c - c + 1) with 1 by lia.
      repeat split; [lia | lia | assumption | intros; lia].
    + destruct (IH (c + 1)) as [(m & Hm & Hgen & Hfirst & ->) | (Hnone & ->)];
        [lia | left | right].
      * exists m. repeat split; try lia; try assumption.
        -- intros j Hj. destruct (Z.eq_dec j c) as [->|]; [assumption|].
           apply Hfirst. lia.
        -- replace (Z.to_nat (m - c + 1)) with (S (Z.to_nat (m - (c + 1) + 1)))
             by lia.
           reflexivity.
      * split.
        -- intros j Hj. destruct (Z.eq_dec j c) as [->|]; [assumption|].
           apply Hnone. lia.
        -- replace (Z.to_nat (hi + 1 - c)) with (S (Z.to_nat (hi + 1 - (c + 1))))
             by lia.
           reflexivity.
  - right. split; [intros; lia|].
    replace (Z.to_nat (hi + 1 - c)) with O by lia. reflexivity.
Qed.

(** [hotpVerify] returns, and does what the specification's search does. *)
Lemma hotpVerify_run_firstMatch (options : HOTPVerifyOptions) :
  exists result calls,
    hotpVerify_run options = Some (result, calls) /\
    firstMatch (fun c => hotpGenerate (generateAt options c))
      (hv_code options) (hv_counter options)
      (orDefault 0 (hv_window options)) result calls.
Proof.
  unfold hotpVerify_run.
  set (opts := hotpVerify_opts options).
  destruct (hotpVerify_for_spec opts (hotpVerify_fuel opts) (vo_counter opts))
    as [(m & Hm & Hgen & Hfirst & ->) | (Hnone & ->)].
  - unfold hotpVerify_fuel. lia.
  - do 2 eexists. split; [reflexivity|].
    apply (firstMatch_found _ _ _ _ m); assumption.
  - do 2 eexists. split; [reflexivity|].
    replace (vo_counter opts + vo_window opts + 1 - vo_counter opts)
      with (vo_window opts + 1) by lia.
    apply firstMatch_none. assumption.
Qed.

Lemma firstMatch_calls gen code counter window result calls :
  firstMatch gen code counter window result calls ->
  Forall (fun c => counter <= c <= counter + window) calls.
Proof.
  intros [c Hc _ _ | _]; eapply Forall_impl; try apply countersFrom_ge;
    simpl; intros x Hx; lia.
Qed.

Lemma firstMatch_delta gen code counter window result calls :
  firstMatch gen code counter window result calls ->
  isNumber (delta result) = valid result.
Proof. intros [c _ _ _ | _]; reflexivity. Qed.

Lemma hotpVerify_total (options : HOTPVerifyOptions) :
  exists result,
    hotpVerify options = Some result /\
    isNumber (delta result) = valid result.
Proof.
  destruct (hotpVerify_run_firstMatch options) as (result & calls & Hrun & Hspec).
  exists result. unfold hotpVerify. rewrite Hrun. split; [reflexivity|].
  eapply firstMatch_delta, Hspec.
Qed.

(** The first evaluation of the loop condition fails when the window is
    negative. *)
Lemma hotpVerify_run_empty (options : HOTPVerifyOptions) :
  orDefault 0 (hv_window options) < 0 ->
  hotpVerify_run options = Some ({| valid := false; delta := None |}, []).
Proof.
  intros Hneg. unfold hotpVerify_run, hotpVerify_fuel.
  cbn [hotpVerify_for].
  destruct (Z.leb_spec (vo_counter (hotpVerify_opts options))
              (vo_counter (hotpVerify_opts options)
               + vo_window (hotpVerify_opts options))) as [Hle|_];
    [|reflexivity].
  simpl in Hle. unfold hotpVerifyDefaults.window in Hle. lia.
Qed.

(** A code found at the first counter ends the search there. *)
Lemma hotpVerify_run_first (options : HOTPVerifyOptions) :
  0 <= orDefault 0 (hv_window options) ->
  hotpGenerate (generateAt options (hv_counter options)) = hv_code options ->
  hotpVerify_run options
  = Some ({| valid := true; delta := Some 0 |}, [hv_counter options]).
Proof.
  intros Hw Hcode. unfold hotpVerify_run, hotpVerify_fuel.
  cbn [hotpVerify_for]. rewrite hotpGenerate_candidate.
  cbn [vo_counter vo_code vo_window hotpVerify_opts].
  rewrite Hcode, String.eqb_refl, Z.sub_diag.
  destruct (Z.leb_spec (hv_counter options)
              (hv_counter options
               + orDefault hotpVerifyDefaults.window (hv_window options)))
    as [_|Hlt]; [reflexivity|].
  unfold hotpVerifyDefaults.window in Hlt. lia.
Qed.

(** ** The format of the code *)

(** C9, amended: for [digits >= 1] and a non-negative truncated value the
    code has as many characters as the smaller of [digits] and the number of
    decimal digits of the truncated value: never more than [digits], and
    when the numeral of the value has at most [digits] digits it is returned
    as it is, without a padding zero. *)
Theorem hotpGenerate_length_min (options : HOTPGenerateOptions) :
  let opts := hotpGenerate_opts options in
  let value := dynamicTruncate (hmacHash opts) in
  1 <= orDefault 6 (hg_digits options) ->
  0 <= value ->
  Z.of_nat (String.length (hotpGenerate options))
  = Z.min (orDefault 6 (hg_digits options)) (decimalDigits value)
  /\
  Z.of_nat (String.length (hotpGenerate options)) <= orDefault 6 (hg_digits options)
  /\
  (decimalDigits value <= orDefault 6 (hg_digits options) ->
   hotpGenerate options = JS.Number_toString value).
Proof.
  intros opts value Hdigits Hvalue. unfold hotpGenerate. cbv zeta.
  fold opts. fold value.
  change (digits opts) with (orDefault 6 (hg_digits options)).
  set (d := orDefault 6 (hg_digits options)) in *.
  assert (Hlen : Z.of_nat (String.length (JS.substr (JS.Number_toString value) (- d)))
                 = Z.min d (decimalDigits value)).
  { rewrite length_substr_neg by lia.
    rewrite length_Number_toString by assumption. lia. }
  split; [exact Hlen|]. split; [lia|].
  intros Hshort. apply substr_neg_short; [lia|].
  rewrite length_Number_toString by assumption. lia.
Qed.

(** The code is the specification's, the truncated value modulo
    [10^digits] padded with zeros, where the truncated value has at least
    [digits] decimal digits. *)
Lemma hotpGenerate_spec_format (options : HOTPGenerateOptions) :
  let opts := hotpGenerate_opts options in
  let value := dynamicTruncate (hmacHash opts) in
  1 <= digits opts ->
  10 ^ (digits opts - 1) <= value ->
  hotpGenerate options = spec_format value (digits opts).
Proof.
  intros opts value Hdigits Hvalue. unfold hotpGenerate. cbv zeta.
  fold opts. fold value.
  replace (digits opts) with (Z.of_nat (Z.to_nat (digits opts - 1)) + 1) by lia.
  apply substr_Number_toString_spec_format.
  now rewrite Z2Nat.id by lia.
Qed.

(** ** The claims on [hotpVerify] and [totpVerify] *)

(** With exact integers: [hotpVerify] visits the counters [counter], [counter + 1], ... in
    increasing order up to [counter + window]; it returns
    [{valid: true, delta: c - counter}] at the first [c] whose code is the
    submitted one, so that the delta is the least matching offset, and
    [{valid: false}] when no counter of the window matches; no code is
    generated at a counter below [counter]. *)
Lemma hotpVerify_first_match_exact (options : HOTPVerifyOptions) :
  exists result calls,
    hotpVerify_run options = Some (result, calls) /\
    hotpVerify options = Some result /\
    firstMatch (fun c => hotpGenerate (generateAt options c))
      (hv_code options) (hv_counter options)
      (orDefault 0 (hv_window options)) result calls /\
    Forall (fun c => hv_counter options <= c) calls.
Proof.
  destruct (hotpVerify_run_firstMatch options) as (result & calls & Hrun & Hspec).
  exists result, calls. unfold hotpVerify. rewrite Hrun.
  repeat split; try assumption.
  eapply Forall_impl; [|eapply firstMatch_calls, Hspec].
  simpl. intros c Hc. lia.
Qed.

(** C3: verifying, with window 0 (given or by default), the code that
    [hotpGenerate] produces for the same secret, counter, digits, encoding
    and algorithm gives [{valid: true, delta: 0}]. *)
Theorem hotpVerify_hotpGenerate (secret : string) (counter : Z)
    (digits : option Z) (encoding : option Encoding)
    (algorithm : option Algorithm) :
  let code :=
    hotpGenerate (mkHOTPGenerateOptions secret counter digits encoding algorithm) in
  hotpVerify
    (mkHOTPVerifyOptions secret counter code (Some 0) digits encoding algorithm)
  = Some {| valid := true; delta := Some 0 |}
  /\
  hotpVerify
    (mkHOTPVerifyOptions secret counter code None digits encoding algorithm)
  = Some {| valid := true; delta := Some 0 |}.
Proof.
  intros code. unfold hotpVerify.
  split; rewrite hotpVerify_run_first; simpl; try reflexivity; lia.
Qed.

(** With exact integers: with a negative window [hotpVerify] returns [{valid: false}],
    without delta, and generates no code at any counter. *)
Lemma hotpVerify_negative_window_exact (options : HOTPVerifyOptions) (w : Z) :
  hv_window options = Some w ->
  w < 0 ->
  hotpVerify options = Some {| valid := false; delta := None |} /\
  hotpVerify_run options = Some ({| valid := false; delta := None |}, []).
Proof.
  intros Hw Hneg.
  assert (Hrun : hotpVerify_run options
                 = Some ({| valid := false; delta := None |}, [])).
  { apply hotpVerify_run_empty. rewrite Hw. exact Hneg. }
  unfold hotpVerify. rewrite Hrun. split; reflexivity.
Qed.

(** [hotpVerify] reads its options through the merged object. *)
Lemma hotpVerify_ext (o1 o2 : HOTPVerifyOptions) :
  hotpVerify_opts o1 = hotpVerify_opts o2 -> hotpVerify o1 = hotpVerify o2.
Proof. unfold hotpVerify, hotpVerify_run. now intros ->. Qed.

(** The call of [hotpVerify] in [totpVerify], on the caller's options. *)
Lemma totpVerify_unfold (options : TOTPVerifyOptions) :
  let window := orDefault 0 (tv_window options) in
  let counter0 :=
    generateCounterFromTime (tv_time options) (orDefault 30 (tv_step options)) in
  totpVerify options
  = match hotpVerify
            {| hv_secret := tv_secret options;
               hv_counter := counter0 - window;
               hv_code := tv_code options;
               hv_window := Some (2 * window);
               hv_digits := tv_digits options;
               hv_encoding := tv_encoding options;
               hv_algorithm := tv_algorithm options |} with
    | None => None
    | Some result =>
        if valid result && isNumber (delta result)
        then Some (subDelta result window)
        else Some result
    end.
Proof.
  intros window counter0. unfold totpVerify. cbv zeta.
  match goal with
  | |- match hotpVerify ?o1 with _ => _ end
       = match hotpVerify ?o2 with _ => _ end =>
      rewrite (hotpVerify_ext o1 o2); [reflexivity|]
  end.
  unfold hotpVerify_opts, totpVerify_hotp, totpVerify_opts.
  cbn [hv_secret hv_counter hv_code hv_window hv_digits hv_encoding
       hv_algorithm tvo_secret tvo_code tvo_window tvo_time tvo_step
       tvo_digits tvo_encoding tvo_algorithm orDefault].
  subst window counter0. rewrite (Z.mul_comm 2).
  destruct (tv_digits options), (tv_encoding options), (tv_algorithm options);
    reflexivity.
Qed.

(** With exact integers: [totpVerify] derives [counter0] from the time and the step, calls
    [hotpVerify] with the counter [counter0 - window] and the window
    [2 * window], and returns its result: a valid one, found at a counter
    [c], with the delta [c - (counter0 - window)] decreased by [window],
    that is [c - counter0], which is 0 for a match at [counter0]; an invalid
    one as [{valid: false}], without delta. *)
Lemma totpVerify_recentres_exact (options : TOTPVerifyOptions) :
  let window := orDefault 0 (tv_window options) in
  let counter0 :=
    generateCounterFromTime (tv_time options) (orDefault 30 (tv_step options)) in
  let adjusted :=
    {| hv_secret := tv_secret options;
       hv_counter := counter0 - window;
       hv_code := tv_code options;
       hv_window := Some (2 * window);
       hv_digits := tv_digits options;
       hv_encoding := tv_encoding options;
       hv_algorithm := tv_algorithm options |} in
  (exists c d,
      hotpVerify adjusted = Some {| valid := true; delta := Some d |} /\
      d = c - (counter0 - window) /\
      hotpGenerate (generateAt adjusted c) = tv_code options /\
      totpVerify options = Some {| valid := true; delta := Some (d - window) |} /\
      d - window = c - counter0)
  \/ (hotpVerify adjusted = Some {| valid := false; delta := None |} /\
      totpVerify options = Some {| valid := false; delta := None |}).
Proof.
  intros window counter0 adjusted.
  pose proof (totpVerify_unfold options) as Htotp.
  cbv zeta in Htotp. fold window counter0 adjusted in Htotp.
  destruct (hotpVerify_run_firstMatch adjusted)
    as (result & calls & Hrun & Hspec).
  unfold hotpVerify in *. rewrite Hrun in *. simpl in Htotp.
  destruct Hspec as [c Hc Hgen Hfirst | Hnone].
  - left. exists c, (c - hv_counter adjusted).
    simpl in *. repeat split; try assumption; lia.
  - right. split; [reflexivity | exact Htotp].
Qed.

(** C4: verifying, with window 0 (given or by default), the code that
    [totpGenerate] produces for the same secret, time [T], step (30 or any
    other), digits, encoding and algorithm gives
    [{valid: true, delta: 0}]. *)
Theorem totpVerify_totpGenerate (secret : string) (T : Z) (step : option Z)
    (digits : option Z) (encoding : option Encoding)
    (algorithm : option Algorithm) :
  let code :=
    totpGenerate
      (mkTOTPGenerateOptions secret (Some T) step digits encoding algorithm) in
  totpVerify
    (mkTOTPVerifyOptions secret code (Some 0) (Some T) step digits encoding
       algorithm)
  = Some {| valid := true; delta := Some 0 |}
  /\
  totpVerify
    (mkTOTPVerifyOptions secret code None (Some T) step digits encoding
       algorithm)
  = Some {| valid := true; delta := Some 0 |}.
Proof.
  intros code.
  split; rewrite totpVerify_unfold; cbv zeta;
    cbn [orDefault tv_secret tv_code tv_window tv_time tv_step tv_digits
         tv_encoding tv_algorithm];
    rewrite Z.sub_0_r; unfold hotpVerify;
    rewrite hotpVerify_run_first; try reflexivity;
    cbn [orDefault hv_window]; try lia;
    subst code; unfold totpGenerate, hotpGenerate;
    destruct step, digits, encoding, algorithm; reflexivity.
Qed.

(** With exact integers: the result of [hotpVerify] and the result of [totpVerify] have a
    delta exactly when they are valid; a code that no counter of
    [counter .. counter + window] generates gives [{valid: false}], without
    delta. *)
Lemma delta_iff_valid_exact (hotp : HOTPVerifyOptions) (totp : TOTPVerifyOptions) :
  (exists result,
      hotpVerify hotp = Some result /\
      (delta result <> None <-> valid result = true))
  /\
  (exists result,
      totpVerify totp = Some result /\
      (delta result <> None <-> valid result = true))
  /\
  ((forall c,
       hv_counter hotp <= c <= hv_counter hotp + orDefault 0 (hv_window hotp) ->
       hotpGenerate (generateAt hotp c) <> hv_code hotp) ->
   hotpVerify hotp = Some {| valid := false; delta := None |}).
Proof.
  assert (Hshape : forall r, isNumber (delta r) = valid r ->
                             (delta r <> None <-> valid r = true)).
  { intros [v [d|]] Hr; simpl in *; subst v; split; congruence. }
  split; [|split].
  - destruct (hotpVerify_total hotp) as (result & Hres & Hnum).
    exists result. split; [assumption | now apply Hshape].
  - rewrite totpVerify_unfold. cbv zeta.
    match goal with
    | |- context [hotpVerify ?o] =>
        destruct (hotpVerify_total o) as (result & -> & Hnum)
    end.
    rewrite Hnum, andb_diag.
    destruct result as [[|] [d|]]; simpl in *; try discriminate;
      eexists; (split; [reflexivity|]); simpl; split; congruence.
  - intros Hnone.
    destruct (hotpVerify_run_firstMatch hotp) as (result & calls & Hrun & Hspec).
    unfold hotpVerify. rewrite Hrun. simpl.
    destruct Hspec as [c Hc Hgen _ | _]; [|reflexivity].
    exfalso. exact (Hnone c Hc Hgen).
Qed.

(** With exact integers: when no counter [counter + j] of the window with [j < k]
    generates the code of [counter + k], [hotpVerify] with window [w]
    accepts that code with delta [k] if [k <= w] and rejects it
    otherwise. *)
Lemma hotpVerify_lookahead_exact (secret : string) (counter k w : Z)
    (digits : option Z) (encoding : option Encoding)
    (algorithm : option Algorithm) :
  let gen c :=
    hotpGenerate (mkHOTPGenerateOptions secret c digits encoding algorithm) in
  0 <= k ->
  0 <= w ->
  (forall j, 0 <= j <= w -> j < k -> gen (counter + j) <> gen (counter + k)) ->
  hotpVerify
    (mkHOTPVerifyOptions secret counter (gen (counter + k)) (Some w) digits
       encoding algorithm)
  = Some (if k <=? w
          then {| valid := true; delta := Some k |}
          else {| valid := false; delta := None |}).
Proof.
  intros gen Hk Hw Hfresh.
  match goal with
  | |- hotpVerify ?o = _ =>
      destruct (hotpVerify_run_firstMatch o) as (result & calls & Hrun & Hspec);
      unfold hotpVerify; rewrite Hrun
  end.
  simpl in *. fold gen in Hspec.
  change (fun c => hotpGenerate (generateAt _ c)) with gen in Hspec.
  destruct Hspec as [c Hc Hgen Hfirst | Hnone].
  - destruct (Z.leb_spec k w) as [Hkw|Hkw].
    + assert (c = counter + k) as ->.
      { destruct (Z_lt_le_dec c (counter + k)) as [Hlt|Hge].
        - exfalso. apply (Hfresh (c - counter)); [lia | lia |].
          now replace (counter + (c - counter)) with c by lia.
        - destruct (Z.eq_dec c (counter + k)); [assumption|].
          exfalso. apply (Hfirst (counter + k)); [lia | reflexivity]. }
      do 3 f_equal. lia.
    + exfalso. apply (Hfresh (c - counter)); [lia | lia |].
      now replace (counter + (c - counter)) with c by lia.
  - destruct (Z.leb_spec k w) as [Hkw|Hkw]; [|reflexivity].
    exfalso. apply (Hnone (counter + k)); [lia | reflexivity].
Qed.

End Verify.

(** ** The functions on the test vectors of RFC 4226 *)

Section Vectors.

Local Existing Instance rfc4226.

(** The codes of the counters 0 and 1 (RFC 4226, appendix D), and of the
    time 59 (RFC 6238, appendix B). *)
Lemma rfc4226_vectors :
  hotpGenerate (mkHOTPGenerateOptions rfc4226_secret 0 None None None) = "755224"
  /\
  hotpGenerate (mkHOTPGenerateOptions rfc4226_secret 1 None None None) = "287082"
  /\
  totpGenerate
    (mkTOTPGenerateOptions rfc4226_secret (Some 59) None None None None)
  = "287082".
Proof. repeat split; vm_compute; reflexivity. Qed.

(** C1: at the counter 10281 the truncated value is 92555, and the code has
    5 characters where the specification's format gives the 6 characters
    "092555"; at the counter 7, whose truncated value 82162583 is in the
    table of RFC 4226, the code for 9 digits has 8 characters; a truncated
    value 42 is formatted as "42", not "000042". *)
Theorem hotpGenerate_not_padded :
  let options := mkHOTPGenerateOptions rfc4226_secret 10281 None None None in
  let options9 := mkHOTPGenerateOptions rfc4226_secret 7 (Some 9) None None in
  dynamicTruncate (hmacHash (hotpGenerate_opts options)) = 92555 /\
  hotpGenerate options = "92555" /\
  String.length (hotpGenerate options) = 5%nat /\
  spec_format 92555 6 = "092555" /\
  dynamicTruncate (hmacHash (hotpGenerate_opts options9)) = 82162583 /\
  hotpGenerate options9 = "82162583" /\
  spec_format 82162583 9 = "082162583" /\
  JS.substr (JS.Number_toString 42) (- 6) = "42" /\
  spec_format 42 6 = "000042".
Proof. repeat split; vm_compute; reflexivity. Qed.

(** The counters 2386 and 2394 have the same code of 6 digits, and the
    code of 2394 is accepted at 2386 with delta 0, whatever the window.  In
    the table of RFC 4226 the counters 1 and 2 have the same last digit. *)
Lemma rfc4226_collision :
  hotpGenerate (mkHOTPGenerateOptions rfc4226_secret 2386 None None None)
  = "709847"
  /\
  hotpGenerate (mkHOTPGenerateOptions rfc4226_secret 2394 None None None)
  = "709847"
  /\
  hotpVerify
    (mkHOTPVerifyOptions rfc4226_secret 2386 "709847" (Some 8) None None None)
  = Some {| valid := true; delta := Some 0 |}
  /\
  hotpVerify
    (mkHOTPVerifyOptions rfc4226_secret 2386 "709847" (Some 0) None None None)
  = Some {| valid := true; delta := Some 0 |}
  /\
  hotpGenerate (mkHOTPGenerateOptions rfc4226_secret 2 (Some 1) None None) = "2"
  /\
  hotpVerify
    (mkHOTPVerifyOptions rfc4226_secret 1 "2" (Some 1) (Some 1) None None)
  = Some {| valid := true; delta := Some 0 |}.
Proof. repeat split; vm_compute; reflexivity. Qed.

(** C5 as stated fails: the code of the counter 2386 + 8 is accepted at the
    counter 2386 with delta 0, not 8, when the window is 8. *)
Lemma hotpVerify_lookahead_collision :
  ~ (forall (Imp : Internals) (secret : string) (counter k w : Z),
        0 <= k -> 0 <= w ->
        hotpVerify
          (mkHOTPVerifyOptions secret counter
             (hotpGenerate
                (mkHOTPGenerateOptions secret (counter + k) None None None))
             (Some w) None None None)
        = Some (if k <=? w
                then {| valid := true; delta := Some k |}
                else {| valid := false; delta := None |})).
Proof.
  intros Hclaim.
  specialize (Hclaim rfc4226 rfc4226_secret 2386 8 8).
  vm_compute in Hclaim.
  specialize (Hclaim ltac:(discriminate) ltac:(discriminate)).
  discriminate Hclaim.
Qed.

(** C9 as stated fails: with [digits: 0] the whole numeral of the truncated
    value is returned, 10 characters at the counter 0. *)
Lemma hotpGenerate_zero_digits :
  ~ (forall (Imp : Internals) (options : HOTPGenerateOptions),
        let opts := hotpGenerate_opts options in
        let value := dynamicTruncate (hmacHash opts) in
        Z.of_nat (String.length (hotpGenerate options))
        = Z.min (orDefault 6 (hg_digits options)) (decimalDigits value)).
Proof.
  intros Hclaim.
  specialize
    (Hclaim rfc4226 (mkHOTPGenerateOptions rfc4226_secret 0 (Some 0) None None)).
  vm_compute in Hclaim. discriminate Hclaim.
Qed.

Lemma hotpGenerate_length_min_witness :
  let options := mkHOTPGenerateOptions rfc4226_secret 10281 None None None in
  let value := dynamicTruncate (hmacHash (hotpGenerate_opts options)) in
  1 <= orDefault 6 (hg_digits options) /\
  0 <= value /\
  Z.of_nat (String.length (hotpGenerate options))
  = Z.min (orDefault 6 (hg_digits options)) (decimalDigits value) /\
  Z.of_nat (String.length (hotpGenerate options)) <= orDefault 6 (hg_digits options) /\
  (decimalDigits value <= orDefault 6 (hg_digits options) ->
   hotpGenerate options = JS.Number_toString value).
Proof.
  intros options value.
  assert (Hdigits : 1 <= orDefault 6 (hg_digits options))
    by (vm_compute; discriminate).
  assert (Hvalue : 0 <= value) by (vm_compute; discriminate).
  split; [exact Hdigits|]. split; [exact Hvalue|].
  exact (hotpGenerate_length_min options Hdigits Hvalue).
Defined.

End Vectors.

(** ** The codecs: decoding what was encoded *)

Section Codec.

Import RFC4648.
Local Open Scope nat_scope.
Local Open Scope list_scope.

Lemma bitsValue_lt (bits : list bool) : bitsValue bits < 2 ^ List.length bits.
Proof.
  induction bits as [|b bits IH]; simpl; [lia|].
  destruct b; lia.
Qed.

Lemma valueBits_bitsValue (bits : list bool) :
  valueBits (List.length bits) (bitsValue bits) = bits.
Proof.
  induction bits as [|b bits IH]; [reflexivity|].
  pose proof (bitsValue_lt bits) as Hlt.
  cbn [List.length valueBits bitsValue].
  destruct b.
  - destruct (Nat.leb_spec (2 ^ List.length bits)
                (2 ^ List.length bits + bitsValue bits)) as [_|]; [|lia].
    replace (2 ^ List.length bits + bitsValue bits - 2 ^ List.length bits)
      with (bitsValue bits) by lia.
    now rewrite IH.
  - destruct (Nat.leb_spec (2 ^ List.length bits) (0 + bitsValue bits))
      as [|_]; [lia|].
    cbn [Nat.add]. now rewrite IH.
Qed.

Lemma length_valueBits : forall k n, List.length (valueBits k n) = k.
Proof.
  induction k as [|k IH]; intros n; [reflexivity|].
  cbn [valueBits]. destruct (2 ^ k <=? n); simpl; now rewrite IH.
Qed.

Lemma bitsByte_byteBits (b : byte) : bitsByte (byteBits b) = b.
Proof. destruct b; vm_compute; reflexivity. Qed.

Lemma length_byteBits (b : byte) : List.length (byteBits b) = 8.
Proof. apply length_valueBits. Qed.

Lemma length_padTo_firstn (k : nat) (bits : list bool) :
  List.length (padTo k (firstn k bits)) = k.
Proof.
  unfold padTo. rewrite length_app, repeat_length, length_firstn. lia.
Qed.

Lemma chunks_length (k : nat) : forall n bits,
  Forall (fun group => List.length group = k) (chunks k n bits).
Proof.
  induction n as [|n IH]; intros bits; cbn [chunks]; constructor.
  - apply length_padTo_firstn.
  - apply IH.
Qed.

Lemma concat_chunks (k : nat) : forall n bits,
  List.length bits <= n * k ->
  List.concat (chunks k n bits)
  = bits ++ repeat false (n * k - List.length bits).
Proof.
  induction n as [|n IH]; intros bits Hlen.
  - destruct bits; [reflexivity | simpl in Hlen; lia].
  - cbn [chunks List.concat]. unfold padTo.
    rewrite IH by (rewrite length_skipn; lia).
    rewrite length_firstn, length_skipn.
    destruct (Nat.le_gt_cases k (List.length bits)) as [Hfull|Hpart].
    + replace (k - Nat.min k (List.length bits)) with 0 by lia.
      cbn [repeat]. rewrite app_nil_r, app_assoc, firstn_skipn.
      f_equal. f_equal. lia.
    + rewrite firstn_all2, skipn_all2 by lia.
      cbn [app]. rewrite <- app_assoc, <- repeat_app.
      f_equal. f_equal. lia.
Qed.

Lemma concat_groupsOf (k : nat) (bits : list bool) :
  0 < k ->
  exists fill,
    fill < k /\
    List.concat (groupsOf k bits) = bits ++ repeat false fill.
Proof.
  intros Hk. unfold groupsOf.
  set (n := (List.length bits + k - 1) / k).
  pose proof (Nat.div_mod_eq (List.length bits + k - 1) k) as Hdiv.
  pose proof (Nat.mod_upper_bound (List.length bits + k - 1) k ltac:(lia)) as Hmod.
  fold n in Hdiv.
  exists (n * k - List.length bits). split; [nia|].
  apply concat_chunks. nia.
Qed.

Lemma length_flat_map_byteBits (bs : list byte) :
  List.length (flat_map byteBits bs) = 8 * List.length bs.
Proof.
  induction bs as [|b bs IH]; [reflexivity|].
  cbn [flat_map]. rewrite length_app, length_byteBits, IH. simpl. lia.
Qed.

Lemma chunks_octets (bs : list byte) (rest : list bool) :
  chunks 8 (List.length bs) (flat_map byteBits bs ++ rest) = map byteBits bs.
Proof.
  induction bs as [|b bs IH]; [reflexivity|].
  cbn [List.length chunks flat_map map]. rewrite <- app_assoc.
  pose proof (length_byteBits b) as Hb.
  rewrite firstn_app, skipn_app.
  rewrite firstn_all2, skipn_all2 by lia.
  rewrite Hb, Nat.sub_diag.
  cbn [firstn skipn app]. rewrite app_nil_r.
  unfold padTo. rewrite Hb, Nat.sub_diag. cbn [repeat].
  rewrite app_nil_r. now rewrite IH.
Qed.

Lemma octetsOf_bytes (bs : list byte) (fill : nat) :
  fill < 8 ->
  map bitsByte (octetsOf (flat_map byteBits bs ++ repeat false fill)) = bs.
Proof.
  intros Hfill. unfold octetsOf.
  rewrite length_app, repeat_length, length_flat_map_byteBits.
  replace ((8 * List.length bs + fill) / 8) with (List.length bs)
    by (apply Nat.div_unique with fill; lia).
  rewrite chunks_octets, map_map.
  rewrite <- (map_id bs) at 2. apply map_ext. apply bitsByte_byteBits.
Qed.

Lemma indexOf_nth (alphabet : list ascii) (d : ascii) :
  NoDup alphabet ->
  forall i, i < List.length alphabet ->
            indexOf (nth i alphabet d) alphabet = Some i.
Proof.
  induction 1 as [|a alphabet Hnotin Hnodup IH]; intros i Hi;
    [simpl in Hi; lia|].
  destruct i as [|i]; cbn [nth indexOf].
  - now rewrite Ascii.eqb_refl.
  - simpl in Hi.
    destruct (Ascii.eqb_spec a (nth i alphabet d)) as [Heq|_].
    + exfalso. apply Hnotin. rewrite Heq. apply nth_In. lia.
    + rewrite IH by lia. reflexivity.
Qed.

Lemma mapM_map {A B : Type} (f : B -> option A) (g : A -> B) (P : A -> Prop) :
  (forall x, P x -> f (g x) = Some x) ->
  forall l, Forall P l -> mapM f (map g l) = Some l.
Proof.
  intros Hfg. induction 1 as [|x l Hx _ IH]; [reflexivity|].
  cbn [map mapM]. now rewrite Hfg, IH.
Qed.

Lemma filter_padding (q n : nat) (cs : list ascii) :
  Forall (fun c => isPad c = false) cs ->
  filter (fun c => negb (isPad c)) (cs ++ padding q n) = cs.
Proof.
  intros Hcs. rewrite filter_app.
  replace (filter (fun c => negb (isPad c)) (padding q n)) with (@nil ascii).
  - rewrite app_nil_r. apply forallb_filter_id.
    apply forallb_forall. rewrite Forall_forall in Hcs.
    intros c Hc. now rewrite Hcs.
  - unfold padding. induction ((q - n mod q) mod q); [reflexivity|assumption].
Qed.

Section RoundTrip.

Variable A : Alphabet.
Hypothesis A_wf : wellFormed A.

Lemma encodeChars_index (group : list bool) :
  List.length group = bitsPerChar A ->
  bitsValue group < List.length (chars A).
Proof.
  intros Hlen. rewrite (wf_size A A_wf), <- Hlen. apply bitsValue_lt.
Qed.

Lemma encodeChars_not_pad (bs : list byte) :
  Forall (fun c => isPad c = false) (encodeChars A bs).
Proof.
  unfold encodeChars. apply Forall_map.
  eapply Forall_impl; [|apply chunks_length].
  cbv beta. intros group Hlen.
  unfold isPad. apply Ascii.eqb_neq. intros Heq.
  apply (wf_pad A A_wf). rewrite <- Heq.
  apply nth_In. now apply encodeChars_index.
Qed.

(** Decoding inverts encoding. *)
Lemma decode_encode (bs : list byte) : decode A (encode A bs) = Some bs.
Proof.
  unfold decode, encode. cbv zeta.
  rewrite list_ascii_of_string_of_list_ascii.
  rewrite filter_padding by apply encodeChars_not_pad.
  unfold encodeChars.
  rewrite (mapM_map _ _ (fun group => List.length group = bitsPerChar A)).
  - destruct (concat_groupsOf (bitsPerChar A) (flat_map byteBits bs))
      as (fill & Hfill & ->); [apply (wf_bits A A_wf)|].
    rewrite octetsOf_bytes; [reflexivity|].
    pose proof (wf_bits A A_wf). lia.
  - intros group Hlen.
    rewrite (indexOf_nth _ _ (wf_nodup A A_wf))
      by now apply encodeChars_index.
    cbn [option_map]. rewrite <- Hlen. now rewrite valueBits_bitsValue.
  - apply chunks_length.
Qed.

End RoundTrip.

Ltac not_in_alphabet :=
  let Hin := fresh "Hin" in
  intros Hin; simpl in Hin;
  repeat (destruct Hin as [Hin|Hin]; [discriminate Hin|]);
  exact Hin.

Ltac alphabet_wellFormed :=
  constructor;
  [ simpl; lia
  | reflexivity
  | simpl; repeat (constructor; [not_in_alphabet|]); constructor
  | not_in_alphabet
  | simpl; lia ].

Lemma base16_wellFormed : wellFormed base16.
Proof. alphabet_wellFormed. Qed.

Lemma base32_wellFormed : wellFormed base32.
Proof. alphabet_wellFormed. Qed.

Lemma base64_wellFormed : wellFormed base64.
Proof. alphabet_wellFormed. Qed.

Lemma removePad_filter (cs : list ascii) :
  removePad (string_of_list_ascii cs)
  = string_of_list_ascii (filter (fun c => negb (isPad c)) cs).
Proof.
  induction cs as [|c cs IH]; [reflexivity|].
  cbn [string_of_list_ascii removePad filter].
  destruct (isPad c); cbn [negb string_of_list_ascii]; now rewrite IH.
Qed.

Lemma length_string_of_list_ascii (cs : list ascii) :
  String.length (string_of_list_ascii cs) = List.length cs.
Proof. induction cs as [|c cs IH]; simpl; [reflexivity | now rewrite IH]. Qed.

Lemma string_of_list_ascii_app (cs ds : list ascii) :
  string_of_list_ascii (cs ++ ds)
  = (string_of_list_ascii cs ++ string_of_list_ascii ds)%string.
Proof. induction cs as [|c cs IH]; simpl; [reflexivity | now rewrite IH]. Qed.

(** Removing the ['='] of a base 32 encoding leaves its characters of the
    alphabet. *)
Lemma removePad_encode (bs : list byte) :
  removePad (hi_base32.encode bs)
  = string_of_list_ascii (encodeChars base32 bs).
Proof.
  unfold hi_base32.encode, encode. cbv zeta.
  rewrite removePad_filter, filter_padding; [reflexivity|].
  apply encodeChars_not_pad, base32_wellFormed.
Qed.

(** Putting the padding back gives the encoding again. *)
Lemma base32_repad_removePad (bs : list byte) :
  base32_repad (removePad (hi_base32.encode bs)) = hi_base32.encode bs.
Proof.
  rewrite removePad_encode. unfold base32_repad, hi_base32.encode, encode.
  cbv zeta.
  now rewrite length_string_of_list_ascii, string_of_list_ascii_app.
Qed.

End Codec.

(** ** [generateSecret] *)

(** C8: when the random string drawn for the length 12 has 12 characters,
    the [ascii] field has length 12 and stands for 12 bytes; the [hex] and
    the [base64] field decode to these bytes; the [base32] field has no
    ['='], is the base 32 encoding of these bytes once the padding is put
    back, and decodes to them.  The length 12 is also the default. *)
Theorem generateSecret_encodings (randomstring : Z -> string) :
  String.length (randomstring 12) = 12%nat ->
  let bundle := generateSecret randomstring (mkSecretOptions (Some 12)) in
  let bytes := NodeBuffer.from_ascii (sr_ascii bundle) in
  generateSecret randomstring (mkSecretOptions None) = bundle /\
  String.length (sr_ascii bundle) = 12%nat /\
  List.length bytes = 12%nat /\
  NodeBuffer.from_hex (sr_hex bundle) = Some bytes /\
  base32_repad (sr_base32 bundle) = hi_base32.encode bytes /\
  hi_base32.decode_asBytes (base32_repad (sr_base32 bundle)) = Some bytes /\
  NodeBuffer.from_base64 (sr_base64 bundle) = Some bytes /\
  ~ In "="%char (list_ascii_of_string (sr_base32 bundle)).
Proof.
  intros Hlength bundle bytes.
  subst bundle bytes. unfold generateSecret. cbv zeta.
  cbn [sr_ascii sr_hex sr_base32 sr_base64 orDefault so_length].
  set (secret := randomstring 12) in *.
  repeat split.
  - exact Hlength.
  - unfold NodeBuffer.from_ascii, list_byte_of_string.
    now rewrite length_map, <- length_string_of_list_ascii,
      string_of_list_ascii_of_string.
  - apply decode_encode, base16_wellFormed.
  - apply base32_repad_removePad.
  - rewrite base32_repad_removePad.
    apply decode_encode, base32_wellFormed.
  - apply decode_encode, base64_wellFormed.
  - rewrite removePad_encode, list_ascii_of_string_of_list_ascii.
    intros Hin.
    pose proof (encodeChars_not_pad _ base32_wellFormed
                  (NodeBuffer.from_ascii secret)) as Hpad.
    rewrite Forall_forall in Hpad. specialize (Hpad _ Hin).
    discriminate Hpad.
Qed.

Lemma generateSecret_encodings_witness :
  let randomstring := fun _ : Z => "k3Xp9LmQ2vRt" in
  let bundle := generateSecret randomstring (mkSecretOptions (Some 12)) in
  let bytes := NodeBuffer.from_ascii (sr_ascii bundle) in
  String.length (randomstring 12) = 12%nat /\
  generateSecret randomstring (mkSecretOptions None) = bundle /\
  String.length (sr_ascii bundle) = 12%nat /\
  List.length bytes = 12%nat /\
  NodeBuffer.from_hex (sr_hex bundle) = Some bytes /\
  base32_repad (sr_base32 bundle) = hi_base32.encode bytes /\
  hi_base32.decode_asBytes (base32_repad (sr_base32 bundle)) = Some bytes /\
  NodeBuffer.from_base64 (sr_base64 bundle) = Some bytes /\
  ~ In "="%char (list_ascii_of_string (sr_base32 bundle)).
Proof.
  intros randomstring bundle bytes.
  split; [reflexivity|].
  apply (generateSecret_encodings randomstring). reflexivity.
Defined.

(** The encodings on the test vectors of RFC 4648, section 10. *)
Lemma rfc4648_vectors :
  NodeBuffer.toString_hex (NodeBuffer.from_ascii "foobar") = "666f6f626172" /\
  NodeBuffer.toString_base64 (NodeBuffer.from_ascii "foobar") = "Zm9vYmFy" /\
  NodeBuffer.toString_base64 (NodeBuffer.from_ascii "fo") = "Zm8=" /\
  NodeBuffer.toString_base64 (NodeBuffer.from_ascii "f") = "Zg==" /\
  hi_base32.encode (NodeBuffer.from_ascii "foobar") = "MZXW6YTBOI======" /\
  hi_base32.encode (NodeBuffer.from_ascii "fo") = "MZXQ====" /\
  hi_base32.encode (NodeBuffer.from_ascii "f") = "MY======".
Proof. repeat split; vm_compute; reflexivity. Qed.

(** * Further properties of [core.ts] *)

(** ** [hotpVerify]: what it accepts, and at what cost *)

Section VerifyMore.

Context `{Imp : Internals}.

Lemma length_countersFrom (n : nat) : forall c,
  List.length (countersFrom c n) = n.
Proof. induction n as [|n IH]; intros c; simpl; [reflexivity | now rewrite IH]. Qed.

(** The outcome of the search is determined, and a match found in a window
    is the outcome in every larger window. *)
Lemma firstMatch_larger gen code counter w w' r r' calls calls' :
  firstMatch gen code counter w r calls ->
  firstMatch gen code counter w' r' calls' ->
  w <= w' ->
  valid r = true ->
  r' = r /\ calls' = calls.
Proof.
  intros [c Hc Hgen Hfirst | Hnone] [c' Hc' Hgen' Hfirst' | Hnone'] Hw Hvalid;
    try discriminate.
  - assert (c' = c) as ->; [|split; reflexivity].
    destruct (Z.lt_trichotomy c' c) as [Hlt | [Heq | Hgt]]; [|assumption|].
    + exfalso. apply (Hfirst c'); [lia | assumption].
    + exfalso. apply (Hfirst' c); [lia | assumption].
  - exfalso. apply (Hnone' c); [lia | assumption].
Qed.

Lemma hotpVerify_rejects (options : HOTPVerifyOptions) :
  (forall c, hotpGenerate (generateAt options c) <> hv_code options) ->
  hotpVerify options = Some {| valid := false; delta := None |}.
Proof.
  intros Hnone.
  destruct (hotpVerify_run_firstMatch options) as (result & calls & Hrun & Hspec).
  unfold hotpVerify. rewrite Hrun. simpl.
  destruct Hspec as [c _ Hgen _ | _]; [|reflexivity].
  exfalso. exact (Hnone c Hgen).
Qed.

(** With exact integers: [hotpVerify] accepts exactly the codes that a counter of
    [counter .. counter + window] generates; the delta of an accepted code
    lies in [0 .. window] and the counter [counter + delta] generates the
    code. *)
Lemma hotpVerify_accepts_iff_exact (options : HOTPVerifyOptions) :
  let counter := hv_counter options in
  let window := orDefault 0 (hv_window options) in
  let gen c := hotpGenerate (generateAt options c) in
  exists result,
    hotpVerify options = Some result /\
    (valid result = true <->
     exists c, counter <= c <= counter + window /\ gen c = hv_code options) /\
    (valid result = true ->
     exists d, delta result = Some d /\ 0 <= d <= window /\
               gen (counter + d) = hv_code options).
Proof.
  intros counter window gen.
  destruct (hotpVerify_run_firstMatch options) as (result & calls & Hrun & Hspec).
  exists result. unfold hotpVerify. rewrite Hrun.
  split; [reflexivity|].
  fold counter window gen in Hspec.
  destruct Hspec as [c Hc Hgen Hfirst | Hnone]; cbn [valid delta].
  - split.
    + split; [intros _; exists c; split; assumption | reflexivity].
    + intros _. exists (c - counter). split; [reflexivity|]. split; [lia|].
      now replace (counter + (c - counter)) with c by lia.
  - split.
    + split; [discriminate|]. intros (c & Hc & Hgen).
      exfalso. exact (Hnone c Hc Hgen).
    + discriminate.
Qed.

(** X2: a code accepted with a window is accepted, with the same delta,
    with every larger window. *)
Theorem hotpVerify_window_monotone (secret : string) (counter : Z)
    (code : string) (w w' : Z) (digits : option Z)
    (encoding : option Encoding) (algorithm : option Algorithm) (d : Z) :
  w <= w' ->
  hotpVerify
    (mkHOTPVerifyOptions secret counter code (Some w) digits encoding algorithm)
  = Some {| valid := true; delta := Some d |} ->
  hotpVerify
    (mkHOTPVerifyOptions secret counter code (Some w') digits encoding algorithm)
  = Some {| valid := true; delta := Some d |}.
Proof.
  intros Hw.
  set (o := mkHOTPVerifyOptions secret counter code (Some w) digits encoding
              algorithm).
  set (o' := mkHOTPVerifyOptions secret counter code (Some w') digits encoding
               algorithm).
  destruct (hotpVerify_run_firstMatch o) as (r & calls & Hrun & Hspec).
  destruct (hotpVerify_run_firstMatch o') as (r' & calls' & Hrun' & Hspec').
  unfold hotpVerify. rewrite Hrun, Hrun'. cbn [option_map fst].
  intros [= ->].
  destruct (firstMatch_larger _ _ _ _ _ _ _ _ _ Hspec Hspec' Hw eq_refl)
    as [-> _].
  reflexivity.
Qed.

(** With exact integers: [hotpVerify] calls [hotpGenerate] at the counters [counter],
    [counter + 1], ... and at no other: [delta + 1] times when it accepts,
    [window + 1] times when it rejects with a non-negative window, and never
    more than [window + 1] times. *)
Lemma hotpVerify_calls_exact (options : HOTPVerifyOptions) :
  let counter := hv_counter options in
  let window := orDefault 0 (hv_window options) in
  exists result calls,
    hotpVerify_run options = Some (result, calls) /\
    Z.of_nat (List.length calls) <= Z.max 0 (window + 1) /\
    Forall (fun c => counter <= c <= counter + window) calls /\
    match delta result with
    | Some d => calls = countersFrom counter (Z.to_nat (d + 1))
    | None => calls = countersFrom counter (Z.to_nat (window + 1))
    end.
Proof.
  intros counter window.
  destruct (hotpVerify_run_firstMatch options) as (result & calls & Hrun & Hspec).
  exists result, calls. split; [assumption|].
  fold counter window in Hspec.
  split; [|split].
  - destruct Hspec as [c Hc _ _ | _]; rewrite length_countersFrom; lia.
  - eapply firstMatch_calls, Hspec.
  - destruct Hspec as [c Hc _ _ | _]; reflexivity.
Qed.

(** ** [totpVerify]: the two-sided window *)

(** The search behind [totpVerify], on the caller's options: the one of
    [hotpVerify] from [counter0 - window] over [2 * window] further
    counters, its delta moved back by [window]. *)
Lemma totpVerify_firstMatch (options : TOTPVerifyOptions) :
  let window := orDefault 0 (tv_window options) in
  let counter0 :=
    generateCounterFromTime (tv_time options) (orDefault 30 (tv_step options)) in
  let gen c :=
    hotpGenerate
      (mkHOTPGenerateOptions (tv_secret options) c (tv_digits options)
         (tv_encoding options) (tv_algorithm options)) in
  exists result calls,
    firstMatch gen (tv_code options) (counter0 - window) (2 * window)
      result calls /\
    totpVerify options
    = Some {| valid := valid result;
              delta := option_map (fun d => d - window) (delta result) |}.
Proof.
  intros window counter0 gen.
  pose proof (totpVerify_unfold options) as Htotp. cbv zeta in Htotp.
  fold window counter0 in Htotp.
  match type of Htotp with
  | context [hotpVerify ?o] =>
      destruct (hotpVerify_run_firstMatch o) as (result & calls & Hrun & Hspec);
      unfold hotpVerify in Htotp; rewrite Hrun in Htotp
  end.
  exists result, calls. split; [exact Hspec|].
  rewrite Htotp. cbn [option_map fst].
  destruct Hspec; reflexivity.
Qed.

(** With exact integers: [totpVerify] accepts exactly the codes that a counter of
    [counter0 - window .. counter0 + window] generates, [counter0] being the
    counter of the time: it reports the first such counter [c] as the delta
    [c - counter0], between [- window] and [window]; without one it
    rejects. *)
Lemma totpVerify_two_sided_exact (options : TOTPVerifyOptions) :
  let window := orDefault 0 (tv_window options) in
  let counter0 :=
    generateCounterFromTime (tv_time options) (orDefault 30 (tv_step options)) in
  let gen c :=
    hotpGenerate
      (mkHOTPGenerateOptions (tv_secret options) c (tv_digits options)
         (tv_encoding options) (tv_algorithm options)) in
  (exists c,
      counter0 - window <= c <= counter0 + window /\
      gen c = tv_code options /\
      (forall j, counter0 - window <= j < c -> gen j <> tv_code options) /\
      - window <= c - counter0 <= window /\
      totpVerify options = Some {| valid := true; delta := Some (c - counter0) |})
  \/
  ((forall c, counter0 - window <= c <= counter0 + window ->
              gen c <> tv_code options) /\
   totpVerify options = Some {| valid := false; delta := None |}).
Proof.
  intros window counter0 gen.
  destruct (totpVerify_firstMatch options) as (result & calls & Hspec & ->).
  fold window counter0 gen in Hspec.
  destruct Hspec as [c Hc Hgen Hfirst | Hnone]; cbn [valid delta option_map].
  - left. exists c. repeat split; try assumption; try lia.
    do 3 f_equal. lia.
  - right. split; [|reflexivity].
    intros c Hc. apply Hnone. lia.
Qed.

(** With exact integers: with a negative window [totpVerify] rejects every code. *)
Lemma totpVerify_negative_window_exact (options : TOTPVerifyOptions) (w : Z) :
  tv_window options = Some w ->
  w < 0 ->
  totpVerify options = Some {| valid := false; delta := None |}.
Proof.
  intros Hw Hneg.
  destruct (totpVerify_firstMatch options) as (result & calls & Hspec & ->).
  rewrite Hw in Hspec. cbn [orDefault] in Hspec.
  destruct Hspec as [c Hc _ _ | _]; [lia | reflexivity].
Qed.

(** With exact integers: a code that [totpGenerate] makes for a time whose counter is at most
    [window] steps before or after the counter of the time of verification
    is accepted by [totpVerify], with a delta between [- window] and the
    distance of the two counters. *)
Lemma totpVerify_accepts_nearby_exact (secret : string) (T T' : Z)
    (step digits : option Z) (encoding : option Encoding)
    (algorithm : option Algorithm) (w : Z) :
  let counter0 := generateCounterFromTime (Some T) (orDefault 30 step) in
  let counter' := generateCounterFromTime (Some T') (orDefault 30 step) in
  counter0 - w <= counter' <= counter0 + w ->
  exists d,
    - w <= d <= counter' - counter0 /\
    totpVerify
      (mkTOTPVerifyOptions secret
         (totpGenerate
            (mkTOTPGenerateOptions secret (Some T') step digits encoding
               algorithm))
         (Some w) (Some T) step digits encoding algorithm)
    = Some {| valid := true; delta := Some d |}.
Proof.
  intros counter0 counter' Hnear.
  match goal with
  | |- exists d, _ /\ totpVerify ?o = _ =>
      destruct (totpVerify_firstMatch o) as (result & calls & Hspec & ->)
  end.
  cbn [tv_window tv_time tv_step tv_secret tv_code tv_digits tv_encoding
       tv_algorithm orDefault] in Hspec.
  fold counter0 in Hspec.
  assert (Hcode :
            hotpGenerate
              (mkHOTPGenerateOptions secret counter' digits encoding algorithm)
            = totpGenerate
                (mkTOTPGenerateOptions secret (Some T') step digits encoding
                   algorithm)).
  { unfold totpGenerate, hotpGenerate. subst counter'.
    destruct step, digits, encoding, algorithm; reflexivity. }
  destruct Hspec as [c Hc Hgen Hfirst | Hnone]; cbn [valid delta option_map].
  - exists (c - (counter0 - w) - w). split; [|reflexivity].
    split; [lia|].
    destruct (Z_lt_le_dec counter' c) as [Hlt|Hle]; [|lia].
    exfalso. apply (Hfirst counter'); [lia | exact Hcode].
  - exfalso. apply (Hnone counter'); [lia | exact Hcode].
Qed.

(** X7: with the window 0, given or by default, [totpVerify] is
    [hotpVerify] at the counter of the time, with the window 0. *)
Theorem totpVerify_window_zero (options : TOTPVerifyOptions) :
  orDefault 0 (tv_window options) = 0 ->
  totpVerify options
  = hotpVerify
      (mkHOTPVerifyOptions (tv_secret options)
         (generateCounterFromTime (tv_time options)
            (orDefault 30 (tv_step options)))
         (tv_code options) (Some 0) (tv_digits options) (tv_encoding options)
         (tv_algorithm options)).
Proof.
  intros Hzero. rewrite totpVerify_unfold. cbv zeta.
  rewrite Hzero, Z.sub_0_r. change (2 * 0) with 0.
  match goal with
  | |- context [hotpVerify ?o] =>
      destruct (hotpVerify_total o) as (result & -> & Hnum)
  end.
  destruct result as [v [d|]]; cbn [valid delta isNumber] in *; subst v;
    cbn [andb]; [|reflexivity].
  unfold subDelta. cbn [valid delta option_map]. now rewrite Z.sub_0_r.
Qed.

(** X8: [totpGenerate] is [hotpGenerate] at the counter of the time, with
    the caller's digits, encoding and algorithm: where the caller gives
    none, the defaults of the two functions are the same. *)
Theorem totpGenerate_hotpGenerate (options : TOTPGenerateOptions) :
  totpGenerate options
  = hotpGenerate
      (mkHOTPGenerateOptions (tg_secret options)
         (generateCounterFromTime (tg_time options)
            (orDefault 30 (tg_step options)))
         (tg_digits options) (tg_encoding options) (tg_algorithm options)).
Proof.
  destruct options as [secret time step digits encoding algorithm].
  unfold totpGenerate, hotpGenerate.
  destruct digits, encoding, algorithm; reflexivity.
Qed.

(** ** The characters and the length of a code *)

Lemma isDecimalDigit_digitChar (d : Z) :
  0 <= d < 10 -> isDecimalDigit (JS.digitChar d) = true.
Proof.
  intros Hd. unfold isDecimalDigit, JS.digitChar.
  rewrite N_ascii_embedding by lia.
  apply andb_true_intro. split; apply N.leb_le; lia.
Qed.

Lemma forallChars_digitsOf : forall fuel n acc,
  0 <= n ->
  forallChars isDecimalDigit acc = true ->
  forallChars isDecimalDigit (JS.digitsOf fuel n acc) = true.
Proof.
  induction fuel as [|fuel IH]; intros n acc Hn Hacc; [exact Hacc|].
  cbn [JS.digitsOf].
  assert (Hacc' : forallChars isDecimalDigit
                    (String (JS.digitChar (n mod 10)) acc) = true).
  { cbn [forallChars]. rewrite Hacc, isDecimalDigit_digitChar; [reflexivity|].
    apply Z.mod_pos_bound. lia. }
  destruct (n <? 10); [exact Hacc'|].
  apply IH; [apply Z.div_pos; lia | exact Hacc'].
Qed.

Lemma forallChars_substring (p : ascii -> bool) : forall s n m,
  forallChars p s = true -> forallChars p (String.substring n m s) = true.
Proof.
  induction s as [|c s IH]; intros [|n] [|m] Hs; try reflexivity;
    cbn [String.substring forallChars] in *;
    apply andb_prop in Hs; destruct Hs as [Hc Hs].
  - rewrite Hc. now apply IH.
  - now apply IH.
  - now apply IH.
Qed.

Lemma length_Number_toString_pos (v : Z) :
  (1 <= String.length (JS.Number_toString v))%nat.
Proof.
  unfold JS.Number_toString. destruct (v <? 0); [simpl; lia|].
  cbn [JS.digitsOf]. destruct (v <? 10); [simpl; lia|].
  rewrite digitsOf_acc, length_append. simpl. lia.
Qed.

(** A string is its first [n] characters followed by the others. *)
Lemma substring_split : forall s n,
  (n <= String.length s)%nat ->
  s = (String.substring 0 n s ++ String.substring n (String.length s - n) s)%string.
Proof.
  induction s as [|c s IH]; intros [|n] Hn; simpl in *; try lia.
  - reflexivity.
  - now rewrite substring_whole.
  - now rewrite <- IH by lia.
Qed.

Lemma hotpGenerate_length_bounds (options : HOTPGenerateOptions) :
  1 <= orDefault 6 (hg_digits options) ->
  1 <= Z.of_nat (String.length (hotpGenerate options))
  <= orDefault 6 (hg_digits options).
Proof.
  intros Hdigits. unfold hotpGenerate. cbv zeta.
  change (digits (hotpGenerate_opts options))
    with (orDefault 6 (hg_digits options)).
  rewrite length_substr_neg by lia.
  pose proof (length_Number_toString_pos
                (dynamicTruncate (hmacHash (hotpGenerate_opts options)))).
  lia.
Qed.

Lemma forallChars_substr_Number_toString (v start : Z) :
  0 <= v ->
  forallChars isDecimalDigit (JS.substr (JS.Number_toString v) start) = true.
Proof.
  intros Hv. unfold JS.substr. cbv zeta.
  apply forallChars_substring. unfold JS.Number_toString.
  destruct (Z.ltb_spec v 0); [lia|].
  now apply forallChars_digitsOf.
Qed.

(** X9: when the truncated value is not negative, every character of the
    code is a decimal digit, whatever [digits] is. *)
Theorem hotpGenerate_decimal (options : HOTPGenerateOptions) :
  0 <= dynamicTruncate (hmacHash (hotpGenerate_opts options)) ->
  forallChars isDecimalDigit (hotpGenerate options) = true.
Proof.
  intros Hvalue. unfold hotpGenerate. cbv zeta.
  now apply forallChars_substr_Number_toString.
Qed.

(** X10: with [digits] zero or negative the code is the numeral of the
    truncated value without its first [- digits] characters: the whole
    numeral for [digits: 0], nothing once [- digits] reaches its length. *)
Theorem hotpGenerate_nonpositive_digits (options : HOTPGenerateOptions) :
  let value := dynamicTruncate (hmacHash (hotpGenerate_opts options)) in
  let numeral := JS.Number_toString value in
  orDefault 6 (hg_digits options) <= 0 ->
  exists dropped,
    numeral = (dropped ++ hotpGenerate options)%string /\
    Z.of_nat (String.length dropped)
    = Z.min (- orDefault 6 (hg_digits options)) (Z.of_nat (String.length numeral)).
Proof.
  intros value numeral Hdigits. unfold hotpGenerate, JS.substr. cbv zeta.
  fold value. fold numeral.
  change (digits (hotpGenerate_opts options))
    with (orDefault 6 (hg_digits options)).
  set (d := orDefault 6 (hg_digits options)) in *.
  destruct (Z.ltb_spec (- d) 0) as [|_]; [lia|].
  set (n := Z.to_nat (Z.min (- d) (Z.of_nat (String.length numeral)))).
  replace (Z.to_nat (Z.of_nat (String.length numeral)
                     - Z.min (- d) (Z.of_nat (String.length numeral))))
    with (String.length numeral - n)%nat by lia.
  exists (String.substring 0 n numeral). split.
  - apply substring_split. lia.
  - rewrite length_substring. lia.
Qed.

(** With exact integers: [hotpVerify] rejects a submitted code that is empty or has more
    than [digits] characters, when [digits] is at least 1. *)
Lemma hotpVerify_rejects_wrong_length_exact (options : HOTPVerifyOptions) :
  1 <= orDefault 6 (hv_digits options) ->
  String.length (hv_code options) = 0%nat
  \/ orDefault 6 (hv_digits options) < Z.of_nat (String.length (hv_code options)) ->
  hotpVerify options = Some {| valid := false; delta := None |}.
Proof.
  intros Hdigits Hlength. apply hotpVerify_rejects. intros c Hcode.
  pose proof (hotpGenerate_length_bounds (generateAt options c) Hdigits) as Hgen.
  rewrite Hcode in Hgen. cbn [generateAt hg_digits] in Hgen. lia.
Qed.

(** With exact integers: [totpVerify] rejects a submitted code that is empty or has more
    than [digits] characters, when [digits] is at least 1. *)
Lemma totpVerify_rejects_wrong_length_exact (options : TOTPVerifyOptions) :
  1 <= orDefault 6 (tv_digits options) ->
  String.length (tv_code options) = 0%nat
  \/ orDefault 6 (tv_digits options) < Z.of_nat (String.length (tv_code options)) ->
  totpVerify options = Some {| valid := false; delta := None |}.
Proof.
  intros Hdigits Hlength.
  destruct (totpVerify_firstMatch options) as (result & calls & Hspec & ->).
  destruct Hspec as [c _ Hcode _ | _]; [exfalso | reflexivity].
  match type of Hcode with
  | hotpGenerate ?o = _ =>
      pose proof (hotpGenerate_length_bounds o Hdigits) as Hgen
  end.
  rewrite Hcode in Hgen. cbn [hg_digits] in Hgen. lia.
Qed.

(** With exact integers: when truncated values are not negative, [hotpVerify] rejects a
    submitted code in which a character is not a decimal digit. *)
Lemma hotpVerify_rejects_non_digit_exact (options : HOTPVerifyOptions) :
  (forall hash, 0 <= dynamicTruncate hash) ->
  forallChars isDecimalDigit (hv_code options) = false ->
  hotpVerify options = Some {| valid := false; delta := None |}.
Proof.
  intros Hvalue Hcode. apply hotpVerify_rejects. intros c Hgen.
  rewrite <- Hgen in Hcode. unfold hotpGenerate in Hcode. cbv zeta in Hcode.
  rewrite forallChars_substr_Number_toString in Hcode by apply Hvalue.
  discriminate Hcode.
Qed.

End VerifyMore.

(** ** [generateSecret]: every length of secret *)

Section SecretMore.

Import RFC4648.
Local Open Scope nat_scope.
Local Open Scope list_scope.

Lemma length_chunks (k : nat) : forall n bits,
  List.length (chunks k n bits) = n.
Proof. induction n as [|n IH]; intros bits; simpl; [reflexivity | now rewrite IH]. Qed.

Lemma length_encodeChars (A : Alphabet) (bs : list byte) :
  List.length (encodeChars A bs)
  = (8 * List.length bs + bitsPerChar A - 1) / bitsPerChar A.
Proof.
  unfold encodeChars, groupsOf.
  now rewrite length_map, length_chunks, length_flat_map_byteBits.
Qed.

Lemma length_encode (A : Alphabet) (bs : list byte) :
  String.length (encode A bs)
  = List.length (encodeChars A bs)
    + (quantum A - List.length (encodeChars A bs) mod quantum A) mod quantum A.
Proof.
  unfold encode. cbv zeta.
  rewrite length_string_of_list_ascii, length_app. unfold padding.
  now rewrite repeat_length.
Qed.

Lemma length_from_ascii (s : string) :
  List.length (NodeBuffer.from_ascii s) = String.length s.
Proof.
  unfold NodeBuffer.from_ascii, list_byte_of_string.
  now rewrite length_map, <- length_string_of_list_ascii,
    string_of_list_ascii_of_string.
Qed.

Lemma from_ascii_inj (s t : string) :
  NodeBuffer.from_ascii s = NodeBuffer.from_ascii t -> s = t.
Proof.
  unfold NodeBuffer.from_ascii. intros Heq.
  rewrite <- (string_of_list_byte_of_string s),
    <- (string_of_list_byte_of_string t).
  now rewrite Heq.
Qed.

Lemma forallChars_string_of_list_ascii (p : ascii -> bool) (cs : list ascii) :
  forallChars p (string_of_list_ascii cs) = forallb p cs.
Proof. induction cs as [|c cs IH]; simpl; [reflexivity | now rewrite IH]. Qed.

Lemma encodeChars_inAlphabet (A : Alphabet) (bs : list byte) :
  wellFormed A ->
  forallb (inAlphabet A) (encodeChars A bs) = true.
Proof.
  intros A_wf. apply forallb_forall. intros c Hc.
  unfold encodeChars in Hc. apply in_map_iff in Hc.
  destruct Hc as (group & <- & Hgroup).
  unfold groupsOf in Hgroup.
  assert (Hlen : List.length group = bitsPerChar A).
  { eapply Forall_forall in Hgroup; [exact Hgroup | apply chunks_length]. }
  unfold inAlphabet. apply existsb_exists.
  exists (nth (bitsValue group) (chars A) "="%char). split.
  - apply nth_In. now apply encodeChars_index.
  - apply Ascii.eqb_refl.
Qed.

Lemma inAlphabet_not_pad (A : Alphabet) (c : ascii) :
  wellFormed A -> inAlphabet A c = true -> isPad c = false.
Proof.
  intros A_wf Hc. unfold inAlphabet in Hc. apply existsb_exists in Hc.
  destruct Hc as (a & Ha & Heq). apply Ascii.eqb_eq in Heq. subst a.
  unfold isPad. apply Ascii.eqb_neq. intros ->. exact (wf_pad A A_wf Ha).
Qed.

Lemma encode_inj (A : Alphabet) (A_wf : wellFormed A) (bs bs' : list byte) :
  encode A bs = encode A bs' -> bs = bs'.
Proof.
  intros Heq. apply (f_equal (decode A)) in Heq.
  rewrite !decode_encode in Heq by assumption. now injection Heq.
Qed.

(** X14: whatever the length asked for and the string drawn, the [hex],
    the [base32] (padding put back) and the [base64] field of the bundle
    decode to the bytes of its [ascii] field, and the padded [base32] field
    is the base 32 encoding of these bytes. *)
Theorem generateSecret_decodes (randomstring : Z -> string)
    (options : SecretOptions) :
  let bundle := generateSecret randomstring options in
  let bytes := NodeBuffer.from_ascii (sr_ascii bundle) in
  NodeBuffer.from_hex (sr_hex bundle) = Some bytes /\
  base32_repad (sr_base32 bundle) = hi_base32.encode bytes /\
  hi_base32.decode_asBytes (base32_repad (sr_base32 bundle)) = Some bytes /\
  NodeBuffer.from_base64 (sr_base64 bundle) = Some bytes.
Proof.
  intros bundle bytes. subst bundle bytes. unfold generateSecret. cbv zeta.
  cbn [sr_ascii sr_hex sr_base32 sr_base64].
  split; [apply decode_encode, base16_wellFormed|].
  split; [apply base32_repad_removePad|].
  split; [|apply decode_encode, base64_wellFormed].
  rewrite base32_repad_removePad. apply decode_encode, base32_wellFormed.
Qed.

(** X15: for a secret of [n] characters the [hex] field has [2 n]
    characters, the [base32] field [(8 n + 4) / 5], the number of groups of
    5 bits that cover the bytes, and the [base64] field [4 ((n + 2) / 3)],
    4 for each 3 bytes begun. *)
Theorem generateSecret_lengths (randomstring : Z -> string)
    (options : SecretOptions) :
  let bundle := generateSecret randomstring options in
  let n := String.length (sr_ascii bundle) in
  String.length (sr_hex bundle) = 2 * n /\
  String.length (sr_base32 bundle) = (8 * n + 4) / 5 /\
  String.length (sr_base64 bundle) = 4 * ((n + 2) / 3).
Proof.
  intros bundle n. subst bundle. unfold generateSecret in *. cbv zeta in *.
  cbn [sr_ascii sr_hex sr_base32 sr_base64] in *.
  set (secret := randomstring _) in *.
  pose proof (length_from_ascii secret) as Hbytes. fold n in Hbytes.
  split; [|split].
  - unfold NodeBuffer.toString_hex. rewrite length_encode, length_encodeChars.
    rewrite Hbytes. cbn [bitsPerChar quantum base16].
    replace ((8 * n + 4 - 1) / 4) with (2 * n)
      by (apply Nat.div_unique with 3; lia).
    rewrite Nat.mod_1_r. cbn. lia.
  - rewrite removePad_encode, length_string_of_list_ascii, length_encodeChars.
    rewrite Hbytes. cbn [bitsPerChar base32]. f_equal. lia.
  - unfold NodeBuffer.toString_base64.
    rewrite length_encode, length_encodeChars.
    rewrite Hbytes. cbn [bitsPerChar quantum base64].
    pose proof (Nat.div_mod_eq n 3) as Hn.
    pose proof (Nat.mod_upper_bound n 3 ltac:(lia)) as Hr.
    set (m := n / 3) in *. set (r := n mod 3) in *.
    assert (Hcases : r = 0 \/ r = 1 \/ r = 2) by lia.
    destruct Hcases as [Hr0 | [Hr1 | Hr2]].
    + replace ((8 * n + 6 - 1) / 6) with (4 * m)
        by (apply Nat.div_unique with 5; lia).
      replace ((n + 2) / 3) with m by (apply Nat.div_unique with 2; lia).
      replace ((4 * m) mod 4) with 0
        by (apply Nat.mod_unique with m; lia).
      cbn. lia.
    + replace ((8 * n + 6 - 1) / 6) with (4 * m + 2)
        by (apply Nat.div_unique with 1; lia).
      replace ((n + 2) / 3) with (m + 1) by (apply Nat.div_unique with 0; lia).
      replace ((4 * m + 2) mod 4) with 2
        by (apply Nat.mod_unique with m; lia).
      cbn. lia.
    + replace ((8 * n + 6 - 1) / 6) with (4 * m + 3)
        by (apply Nat.div_unique with 3; lia).
      replace ((n + 2) / 3) with (m + 1) by (apply Nat.div_unique with 1; lia).
      replace ((4 * m + 3) mod 4) with 3
        by (apply Nat.mod_unique with m; lia).
      cbn. lia.
Qed.

(** X16: the [hex] field is made of the characters [0-9a-f], the [base32]
    field of [A-Z2-7], and the [base64] field of [A-Za-z0-9+/] and the
    padding ['=']. *)
Theorem generateSecret_alphabets (randomstring : Z -> string)
    (options : SecretOptions) :
  let bundle := generateSecret randomstring options in
  forallChars (inAlphabet base16) (sr_hex bundle) = true /\
  forallChars (inAlphabet base32) (sr_base32 bundle) = true /\
  forallChars (fun c => inAlphabet base64 c || isPad c) (sr_base64 bundle) = true.
Proof.
  intros bundle. subst bundle. unfold generateSecret. cbv zeta.
  cbn [sr_hex sr_base32 sr_base64].
  set (bytes := NodeBuffer.from_ascii _).
  split; [|split].
  - unfold NodeBuffer.toString_hex, encode. cbv zeta.
    rewrite forallChars_string_of_list_ascii.
    unfold padding. cbn [quantum base16]. rewrite Nat.mod_1_r. cbn [repeat Nat.sub Nat.modulo].
    replace ((1 - 0) mod 1) with 0 by reflexivity. cbn [repeat].
    rewrite app_nil_r. apply encodeChars_inAlphabet, base16_wellFormed.
  - rewrite removePad_encode, forallChars_string_of_list_ascii.
    apply encodeChars_inAlphabet, base32_wellFormed.
  - unfold NodeBuffer.toString_base64, encode. cbv zeta.
    rewrite forallChars_string_of_list_ascii, forallb_app.
    apply andb_true_intro. split.
    + apply forallb_forall. intros c Hc.
      pose proof (encodeChars_inAlphabet base64 bytes base64_wellFormed) as Hall.
      rewrite forallb_forall in Hall. now rewrite (Hall c Hc).
    + apply forallb_forall. intros c Hc. unfold padding in Hc.
      apply repeat_spec in Hc. subst c. apply orb_true_r.
Qed.

(** X17: each of the [hex], [base32] and [base64] fields determines the
    secret: two bundles that agree on one of them are the same bundle. *)
Theorem generateSecret_field_determines (randomstring1 randomstring2 : Z -> string)
    (options1 options2 : SecretOptions) :
  let bundle1 := generateSecret randomstring1 options1 in
  let bundle2 := generateSecret randomstring2 options2 in
  sr_hex bundle1 = sr_hex bundle2
  \/ sr_base32 bundle1 = sr_base32 bundle2
  \/ sr_base64 bundle1 = sr_base64 bundle2 ->
  bundle1 = bundle2.
Proof.
  intros bundle1 bundle2 Hfield. subst bundle1 bundle2.
  unfold generateSecret in *. cbv zeta in *.
  cbn [sr_hex sr_base32 sr_base64] in Hfield.
  set (secret1 := randomstring1 _) in *. set (secret2 := randomstring2 _) in *.
  assert (Hbytes : NodeBuffer.from_ascii secret1 = NodeBuffer.from_ascii secret2).
  { destruct Hfield as [Hhex | [Hb32 | Hb64]].
    - exact (encode_inj base16 base16_wellFormed _ _ Hhex).
    - apply (encode_inj base32 base32_wellFormed).
      change (hi_base32.encode (NodeBuffer.from_ascii secret1)
              = hi_base32.encode (NodeBuffer.from_ascii secret2)).
      rewrite <- (base32_repad_removePad (NodeBuffer.from_ascii secret1)).
      rewrite <- (base32_repad_removePad (NodeBuffer.from_ascii secret2)).
      now rewrite Hb32.
    - exact (encode_inj base64 base64_wellFormed _ _ Hb64). }
  apply from_ascii_inj in Hbytes. now rewrite Hbytes.
Qed.

End SecretMore.

(** ** The further properties on the test vectors *)

Section VectorsMore.

Local Existing Instance rfc4226.

(** The truncated values of the model are not negative. *)
Lemma rfc4226_dynamicTruncate_nonneg (hash : Buffer) : 0 <= dynamicTruncate hash.
Proof.
  cbn [dynamicTruncate rfc4226 Model.internals]. unfold Model.dynamicTruncate.
  cbv zeta. apply Z.land_nonneg. right. lia.
Qed.

Lemma hotpVerify_window_monotone_witness :
  1 <= 5 /\
  hotpVerify
    (mkHOTPVerifyOptions rfc4226_secret 0 "287082" (Some 1) None None None)
  = Some {| valid := true; delta := Some 1 |} /\
  hotpVerify
    (mkHOTPVerifyOptions rfc4226_secret 0 "287082" (Some 5) None None None)
  = Some {| valid := true; delta := Some 1 |}.
Proof.
  assert (Hw : 1 <= 5) by discriminate.
  assert (Hnarrow :
            hotpVerify
              (mkHOTPVerifyOptions rfc4226_secret 0 "287082" (Some 1) None None
                 None)
            = Some {| valid := true; delta := Some 1 |})
    by (vm_compute; reflexivity).
  split; [exact Hw|]. split; [exact Hnarrow|].
  exact (hotpVerify_window_monotone rfc4226_secret 0 "287082" 1 5 None None None
           1 Hw Hnarrow).
Defined.

Lemma totpVerify_window_zero_witness :
  let options :=
    mkTOTPVerifyOptions rfc4226_secret "287082" None (Some 59) None None None
      None in
  orDefault 0 (tv_window options) = 0 /\
  totpVerify options
  = hotpVerify
      (mkHOTPVerifyOptions (tv_secret options)
         (generateCounterFromTime (tv_time options)
            (orDefault 30 (tv_step options)))
         (tv_code options) (Some 0) (tv_digits options) (tv_encoding options)
         (tv_algorithm options)).
Proof.
  intros options. split; [reflexivity|].
  exact (totpVerify_window_zero options eq_refl).
Defined.

Lemma hotpGenerate_decimal_witness :
  let options := mkHOTPGenerateOptions rfc4226_secret 0 None None None in
  0 <= dynamicTruncate (hmacHash (hotpGenerate_opts options)) /\
  forallChars isDecimalDigit (hotpGenerate options) = true.
Proof.
  intros options.
  assert (Hvalue : 0 <= dynamicTruncate (hmacHash (hotpGenerate_opts options)))
    by apply rfc4226_dynamicTruncate_nonneg.
  split; [exact Hvalue|].
  exact (hotpGenerate_decimal options Hvalue).
Defined.

Lemma hotpGenerate_nonpositive_digits_witness :
  let options := mkHOTPGenerateOptions rfc4226_secret 0 (Some (-4)) None None in
  let value := dynamicTruncate (hmacHash (hotpGenerate_opts options)) in
  let numeral := JS.Number_toString value in
  orDefault 6 (hg_digits options) <= 0 /\
  exists dropped,
    numeral = (dropped ++ hotpGenerate options)%string /\
    Z.of_nat (String.length dropped)
    = Z.min (- orDefault 6 (hg_digits options)) (Z.of_nat (String.length numeral)).
Proof.
  intros options value numeral.
  assert (Hdigits : orDefault 6 (hg_digits options) <= 0) by discriminate.
  split; [exact Hdigits|].
  exact (hotpGenerate_nonpositive_digits options Hdigits).
Defined.

End VectorsMore.

Lemma generateSecret_field_determines_witness :
  let randomstring1 := fun _ : Z => "k3Xp9LmQ2vRt" in
  let randomstring2 := fun n : Z => if n =? 12 then "k3Xp9LmQ2vRt" else "" in
  let bundle1 := generateSecret randomstring1 (mkSecretOptions (Some 20)) in
  let bundle2 := generateSecret randomstring2 (mkSecretOptions None) in
  (sr_hex bundle1 = sr_hex bundle2
   \/ sr_base32 bundle1 = sr_base32 bundle2
   \/ sr_base64 bundle1 = sr_base64 bundle2) /\
  bundle1 = bundle2.
Proof.
  intros randomstring1 randomstring2 bundle1 bundle2.
  assert (Hfield : sr_hex bundle1 = sr_hex bundle2
                   \/ sr_base32 bundle1 = sr_base32 bundle2
                   \/ sr_base64 bundle1 = sr_base64 bundle2)
    by (right; left; reflexivity).
  split; [exact Hfield|].
  exact (generateSecret_field_determines randomstring1 randomstring2
           (mkSecretOptions (Some 20)) (mkSecretOptions None) Hfield).
Defined.

(** ** Verifying again: after a match, and with a larger window *)

Section VerifyAgain.

Context `{Imp : Internals}.


(** With exact integers: a code that [totpVerify] accepts with a window is accepted with
    every larger window, with a delta that is not greater (the search
    starts earlier). *)
Lemma totpVerify_window_monotone_exact (secret code : string) (w w' : Z)
    (time step digits : option Z) (encoding : option Encoding)
    (algorithm : option Algorithm) (d : Z) :
  w <= w' ->
  totpVerify
    (mkTOTPVerifyOptions secret code (Some w) time step digits encoding
       algorithm)
  = Some {| valid := true; delta := Some d |} ->
  exists d',
    d' <= d /\
    totpVerify
      (mkTOTPVerifyOptions secret code (Some w') time step digits encoding
         algorithm)
    = Some {| valid := true; delta := Some d' |}.
Proof.
  intros Hw.
  set (o := mkTOTPVerifyOptions secret code (Some w) time step digits encoding
              algorithm).
  set (o' := mkTOTPVerifyOptions secret code (Some w') time step digits encoding
               algorithm).
  destruct (totpVerify_firstMatch o) as (r & calls & Hspec & ->).
  destruct (totpVerify_firstMatch o') as (r' & calls' & Hspec' & ->).
  cbn [o o' tv_window tv_time tv_step tv_secret tv_code tv_digits tv_encoding
       tv_algorithm orDefault] in Hspec, Hspec'.
  set (counter0 := generateCounterFromTime time (orDefault 30 step)) in *.
  destruct Hspec as [c Hc Hgen Hfirst | Hnone]; cbn [valid delta option_map];
    [|discriminate].
  intros [= <-].
  destruct Hspec' as [c' Hc' Hgen' Hfirst' | Hnone']; cbn [valid delta option_map].
  - exists (c' - (counter0 - w') - w'). split; [|reflexivity].
    destruct (Z_lt_le_dec c c') as [Hlt|Hle]; [|lia].
    exfalso. apply (Hfirst' c); [lia | exact Hgen].
  - exfalso. apply (Hnone' c); [lia | exact Hgen].
Qed.

End VerifyAgain.

Section VectorsAgain.

Local Existing Instance rfc4226.


End VectorsAgain.

(** * The source on doubles *)

(** ** Rounding *)

Lemma toDouble_exact (n : Z) :
  - 2 ^ 53 <= n <= 2 ^ 53 -> Float64.toDouble n = n.
Proof.
  intros Hn. unfold Float64.toDouble. cbv zeta.
  destruct (Z.ltb_spec (Z.abs n) (2 ^ 53)) as [_|Habs]; [reflexivity|].
  assert (Hcases : n = 2 ^ 53 \/ n = - 2 ^ 53) by lia.
  destruct Hcases as [-> | ->]; vm_compute; reflexivity.
Qed.

Lemma roundEven_lower (a : Z) :
  2 ^ 53 <= a -> 2 ^ 53 <= Float64.roundEven a (Z.log2 a - 52).
Proof.
  intros Ha. unfold Float64.roundEven. cbv zeta.
  assert (Hlog : 53 <= Z.log2 a).
  { change 53 with (Z.log2 (2 ^ 53)). now apply Z.log2_le_mono. }
  set (e := Z.log2 a - 52) in *.
  assert (He : 1 <= e) by lia.
  assert (Hpow : 2 <= 2 ^ e).
  { change 2 with (2 ^ 1) at 1. apply Z.pow_le_mono_r; lia. }
  assert (Hq : 2 ^ 52 <= a / 2 ^ e).
  { apply Z.div_le_lower_bound; [lia|].
    rewrite <- Z.pow_add_r by lia.
    replace (e + 52) with (Z.log2 a) by lia.
    apply Z.log2_spec. lia. }
  destruct ((2 ^ (e - 1) <? a mod 2 ^ e)
            || (a mod 2 ^ e =? 2 ^ (e - 1)) && Z.odd (a / 2 ^ e)); nia.
Qed.

(** An integer at or below [- 2^53] is rounded to one at or below it. *)
Lemma toDouble_below (n : Z) :
  n <= - 2 ^ 53 -> Float64.toDouble n <= - 2 ^ 53.
Proof.
  intros Hn. unfold Float64.toDouble. cbv zeta.
  destruct (Z.ltb_spec (Z.abs n) (2 ^ 53)) as [|_]; [lia|].
  pose proof (roundEven_lower (Z.abs n) ltac:(lia)) as Hround.
  rewrite Z.sgn_neg by lia. lia.
Qed.

(** ** The loop on doubles and the loop on exact integers *)

Section Exact.

Context `{Imp : Internals}.

Lemma hotpVerify_for_S (fuel : nat) (opts : HOTPVerifyOpts) (c : Z) :
  hotpVerify_for (S fuel) opts c
  = if c <=? vo_counter opts + vo_window opts then
      if String.eqb (hotpGenerate (hotpVerify_candidate opts c)) (vo_code opts)
      then Some ({| valid := true; delta := Some (c - vo_counter opts) |}, [c])
      else match hotpVerify_for fuel opts (c + 1) with
           | Some (result, calls) => Some (result, c :: calls)
           | None => None
           end
    else Some ({| valid := false; delta := None |}, []).
Proof. reflexivity. Qed.

Lemma hotpVerify_for_more_fuel (opts : HOTPVerifyOpts) : forall fuel c x,
  hotpVerify_for fuel opts c = Some x ->
  hotpVerify_for (S fuel) opts c = Some x.
Proof.
  induction fuel as [|fuel IH]; intros c x Hrun; [discriminate|].
  rewrite hotpVerify_for_S in Hrun. rewrite (hotpVerify_for_S (S fuel)).
  destruct (c <=? vo_counter opts + vo_window opts); [|exact Hrun].
  destruct (String.eqb _ _); [exact Hrun|].
  destruct (hotpVerify_for fuel opts (c + 1)) as [[r calls]|] eqn:Hrest;
    [|discriminate].
  now rewrite (IH _ _ Hrest).
Qed.

Lemma hotpVerify_for_fuel_le (opts : HOTPVerifyOpts) (fuel fuel' : nat) c x :
  (fuel <= fuel')%nat ->
  hotpVerify_for fuel opts c = Some x ->
  hotpVerify_for fuel' opts c = Some x.
Proof.
  induction 1 as [|fuel' _ IH]; intros Hrun; [exact Hrun|].
  now apply hotpVerify_for_more_fuel, IH.
Qed.

(** On safe counters and windows the loop on doubles is the loop on exact
    integers. *)
Lemma hotpVerify_for64_exact (opts : HOTPVerifyOpts) :
  hotpSafe (vo_counter opts) (vo_window opts) ->
  forall fuel c,
    vo_counter opts <= c ->
    hotpVerify_for64 fuel opts c = hotpVerify_for fuel opts c.
Proof.
  intros (Hlow & Hhigh & Hwindow).
  induction fuel as [|fuel IH]; intros c Hc; [reflexivity|].
  cbn [hotpVerify_for64 hotpVerify_for].
  assert (Hguard : (c <=? Float64.add (vo_counter opts) (vo_window opts))
                   = (c <=? vo_counter opts + vo_window opts)).
  { unfold Float64.add.
    destruct (Z_le_gt_dec (- 2 ^ 53) (vo_counter opts + vo_window opts)).
    - now rewrite toDouble_exact by lia.
    - pose proof (toDouble_below (vo_counter opts + vo_window opts) ltac:(lia)).
      destruct (Z.leb_spec c
                  (Float64.toDouble (vo_counter opts + vo_window opts)));
        destruct (Z.leb_spec c (vo_counter opts + vo_window opts));
        try reflexivity; lia. }
  rewrite Hguard.
  destruct (Z.leb_spec c (vo_counter opts + vo_window opts)) as [Hle|_];
    [|reflexivity].
  unfold Float64.sub, Float64.add.
  rewrite !toDouble_exact by lia.
  now rewrite IH by lia.
Qed.

Lemma hotpVerify_run64_exact (options : HOTPVerifyOptions) (fuel : nat) :
  hotpSafe (hv_counter options) (orDefault 0 (hv_window options)) ->
  hotpVerify_run64 fuel options
  = hotpVerify_for fuel (hotpVerify_opts options) (hv_counter options).
Proof.
  intros Hsafe. unfold hotpVerify_run64. cbv zeta.
  apply hotpVerify_for64_exact; [exact Hsafe | reflexivity].
Qed.

(** What [hotpVerify] on exact integers answers, [hotpVerify] on doubles
    returns, on safe counters and windows; and it returns nothing else. *)
Lemma hotpVerify_run64_returns (options : HOTPVerifyOptions) x :
  hotpSafe (hv_counter options) (orDefault 0 (hv_window options)) ->
  hotpVerify_run options = Some x ->
  returns (fun fuel => hotpVerify_run64 fuel options) x.
Proof.
  intros Hsafe Hrun. exists (hotpVerify_fuel (hotpVerify_opts options)).
  now rewrite hotpVerify_run64_exact.
Qed.

Lemma hotpVerify64_returns (options : HOTPVerifyOptions) r :
  hotpSafe (hv_counter options) (orDefault 0 (hv_window options)) ->
  hotpVerify options = Some r ->
  returns (fun fuel => hotpVerify64 fuel options) r.
Proof.
  intros Hsafe Hrun. exists (hotpVerify_fuel (hotpVerify_opts options)).
  unfold hotpVerify64. rewrite hotpVerify_run64_exact by assumption.
  exact Hrun.
Qed.

Lemma hotpVerify_run64_only (options : HOTPVerifyOptions) (fuel : nat) x :
  hotpSafe (hv_counter options) (orDefault 0 (hv_window options)) ->
  hotpVerify_run64 fuel options = Some x ->
  hotpVerify_run options = Some x.
Proof.
  intros Hsafe Hrun. rewrite hotpVerify_run64_exact in Hrun by assumption.
  destruct (hotpVerify_run_firstMatch options) as (r & calls & Hexact & _).
  unfold hotpVerify_run in *. cbv zeta in *.
  change (vo_counter (hotpVerify_opts options)) with (hv_counter options) in *.
  destruct (Nat.le_ge_cases fuel (hotpVerify_fuel (hotpVerify_opts options)))
    as [Hle|Hge].
  - exact (hotpVerify_for_fuel_le _ _ _ _ _ Hle Hrun).
  - pose proof (hotpVerify_for_fuel_le _ _ _ _ _ Hge Hexact) as Hsame.
    rewrite Hsame in Hrun. injection Hrun as <-. exact Hexact.
Qed.

Lemma hotpVerify64_only (options : HOTPVerifyOptions) (fuel : nat) r :
  hotpSafe (hv_counter options) (orDefault 0 (hv_window options)) ->
  hotpVerify64 fuel options = Some r ->
  hotpVerify options = Some r.
Proof.
  intros Hsafe Hrun. unfold hotpVerify64 in Hrun.
  destruct (hotpVerify_run64 fuel options) as [x|] eqn:Hx; [|discriminate].
  unfold hotpVerify. now rewrite (hotpVerify_run64_only _ _ _ Hsafe Hx).
Qed.

Lemma hotpVerify_for64_S (fuel : nat) (opts : HOTPVerifyOpts) (c : Z) :
  hotpVerify_for64 (S fuel) opts c
  = if c <=? Float64.add (vo_counter opts) (vo_window opts) then
      if String.eqb (hotpGenerate (hotpVerify_candidate opts c)) (vo_code opts)
      then Some ({| valid := true;
                    delta := Some (Float64.sub c (vo_counter opts)) |}, [c])
      else match hotpVerify_for64 fuel opts (Float64.add c 1) with
           | Some (result, calls) => Some (result, c :: calls)
           | None => None
           end
    else Some ({| valid := false; delta := None |}, []).
Proof. reflexivity. Qed.

(** Every result of the loop on doubles has a delta exactly when it is
    valid. *)
Lemma hotpVerify_for64_shape (opts : HOTPVerifyOpts) : forall fuel c r calls,
  hotpVerify_for64 fuel opts c = Some (r, calls) ->
  isNumber (delta r) = valid r.
Proof.
  induction fuel as [|fuel IH]; intros c r calls Hrun; [discriminate|].
  rewrite hotpVerify_for64_S in Hrun.
  destruct (c <=? Float64.add (vo_counter opts) (vo_window opts)).
  - destruct (String.eqb _ _).
    + now injection Hrun as <- _.
    + destruct (hotpVerify_for64 fuel opts (Float64.add c 1))
        as [[r' calls']|] eqn:Hrest; [|discriminate].
      injection Hrun as <- _. exact (IH _ _ _ Hrest).
  - now injection Hrun as <- _.
Qed.

(** The loop does not end from [c] when it does not end from the next
    counter, and [c] is within the bound and does not match. *)
Lemma hotpVerify_for64_miss (opts : HOTPVerifyOpts) (c : Z) :
  (c <=? Float64.add (vo_counter opts) (vo_window opts)) = true ->
  String.eqb (hotpGenerate (hotpVerify_candidate opts c)) (vo_code opts) = false ->
  diverges (fun fuel => hotpVerify_for64 fuel opts (Float64.add c 1)) ->
  diverges (fun fuel => hotpVerify_for64 fuel opts c).
Proof.
  intros Hguard Hmiss Hnext [|fuel]; [reflexivity|].
  rewrite hotpVerify_for64_S, Hguard, Hmiss. now rewrite (Hnext fuel).
Qed.

(** The loop does not end from a counter that [c += 1] leaves where it is,
    within the bound and without a match. *)
Lemma hotpVerify_for64_stuck (opts : HOTPVerifyOpts) (c : Z) :
  (c <=? Float64.add (vo_counter opts) (vo_window opts)) = true ->
  String.eqb (hotpGenerate (hotpVerify_candidate opts c)) (vo_code opts) = false ->
  Float64.add c 1 = c ->
  diverges (fun fuel => hotpVerify_for64 fuel opts c).
Proof.
  intros Hguard Hmiss Hstuck fuel.
  induction fuel as [|fuel IH]; [reflexivity|].
  rewrite hotpVerify_for64_S, Hguard, Hmiss, Hstuck. now rewrite IH.
Qed.

Lemma hotpVerify_delta_range (options : HOTPVerifyOptions) r d :
  hotpVerify options = Some r ->
  delta r = Some d ->
  0 <= d <= orDefault 0 (hv_window options).
Proof.
  intros Hrun Hdelta.
  destruct (hotpVerify_run_firstMatch options) as (r' & calls & Hexact & Hspec).
  unfold hotpVerify in Hrun. rewrite Hexact in Hrun.
  injection Hrun as <-.
  destruct Hspec as [c Hc _ _ | _]; [|discriminate].
  injection Hdelta as <-. lia.
Qed.

Lemma totpSafe_hotpSafe (counter0 window : Z) :
  totpSafe counter0 window -> hotpSafe (counter0 - window) (2 * window).
Proof. unfold totpSafe, hotpSafe. lia. Qed.

(** [hotpVerify] on doubles reads its options through the merged
    object. *)
Lemma hotpVerify64_ext (fuel : nat) (o1 o2 : HOTPVerifyOptions) :
  hotpVerify_opts o1 = hotpVerify_opts o2 ->
  hotpVerify64 fuel o1 = hotpVerify64 fuel o2.
Proof. unfold hotpVerify64, hotpVerify_run64. now intros ->. Qed.

(** The call of [hotpVerify] in [totpVerify] on doubles, on safe counters
    and windows. *)
Lemma totpVerify64_unfold (options : TOTPVerifyOptions) (fuel : nat) :
  let window := orDefault 0 (tv_window options) in
  let counter0 :=
    generateCounterFromTime (tv_time options) (orDefault 30 (tv_step options)) in
  totpSafe counter0 window ->
  totpVerify64 fuel options
  = match hotpVerify64 fuel
            {| hv_secret := tv_secret options;
               hv_counter := counter0 - window;
               hv_code := tv_code options;
               hv_window := Some (2 * window);
               hv_digits := tv_digits options;
               hv_encoding := tv_encoding options;
               hv_algorithm := tv_algorithm options |} with
    | None => None
    | Some result =>
        if valid result && isNumber (delta result)
        then Some (subDelta64 result window)
        else Some result
    end.
Proof.
  intros window counter0 Hsafe. unfold totpVerify64. cbv zeta.
  change (tvo_window (totpVerify_opts options)) with window.
  change (generateCounterFromTime (tvo_time (totpVerify_opts options))
            (tvo_step (totpVerify_opts options))) with counter0.
  unfold Float64.sub at 1. unfold Float64.mul.
  unfold totpSafe in Hsafe.
  rewrite !toDouble_exact by lia.
  match goal with
  | |- match hotpVerify64 _ ?o1 with _ => _ end
       = match hotpVerify64 _ ?o2 with _ => _ end =>
      rewrite (hotpVerify64_ext fuel o1 o2); [reflexivity|]
  end.
  unfold hotpVerify_opts, totpVerify_hotp, totpVerify_opts.
  cbn [hv_secret hv_counter hv_code hv_window hv_digits hv_encoding
       hv_algorithm tvo_secret tvo_code tvo_window tvo_time tvo_step
       tvo_digits tvo_encoding tvo_algorithm orDefault].
  rewrite (Z.mul_comm 2).
  destruct (tv_digits options), (tv_encoding options), (tv_algorithm options);
    reflexivity.
Qed.

(** [totpVerify] on doubles and on exact integers answer the same on safe
    counters and windows. *)
Lemma totpVerify64_exact (options : TOTPVerifyOptions) (fuel : nat) r :
  totpSafe
    (generateCounterFromTime (tv_time options) (orDefault 30 (tv_step options)))
    (orDefault 0 (tv_window options)) ->
  totpVerify64 fuel options = Some r ->
  totpVerify options = Some r.
Proof.
  intros Hsafe Hrun.
  rewrite totpVerify64_unfold in Hrun by exact Hsafe.
  rewrite totpVerify_unfold. cbv zeta.
  match type of Hrun with
  | context [hotpVerify64 fuel ?o] =>
      destruct (hotpVerify64 fuel o) as [result|] eqn:Hhotp; [|discriminate];
      apply hotpVerify64_only in Hhotp; [|apply totpSafe_hotpSafe, Hsafe];
      rewrite Hhotp; pose proof (hotpVerify_delta_range o result) as Hrange
  end.
  destruct result as [v [d|]]; cbn [valid delta isNumber] in *;
    destruct v; cbn [andb] in *; try exact Hrun.
  specialize (Hrange d Hhotp eq_refl). cbn [hv_window orDefault] in Hrange.
  unfold subDelta64, subDelta, Float64.sub in *. cbn [valid delta option_map] in *.
  unfold totpSafe in Hsafe. rewrite toDouble_exact in Hrun by lia.
  exact Hrun.
Qed.

Lemma totpVerify64_returns (options : TOTPVerifyOptions) r :
  totpSafe
    (generateCounterFromTime (tv_time options) (orDefault 30 (tv_step options)))
    (orDefault 0 (tv_window options)) ->
  totpVerify options = Some r ->
  returns (fun fuel => totpVerify64 fuel options) r.
Proof.
  intros Hsafe Hrun.
  rewrite totpVerify_unfold in Hrun. cbv zeta in Hrun.
  match type of Hrun with
  | context [hotpVerify ?o] =>
      destruct (hotpVerify o) as [result|] eqn:Hhotp; [|discriminate];
      pose proof (fun d => hotpVerify_delta_range o result d Hhotp) as Hrange;
      destruct (hotpVerify64_returns o result
                  (totpSafe_hotpSafe _ _ Hsafe) Hhotp) as (fuel & Hfuel)
  end.
  exists fuel. cbv beta in Hfuel.
  rewrite totpVerify64_unfold by exact Hsafe. rewrite Hfuel.
  destruct result as [v [d|]]; cbn [valid delta isNumber] in *;
    destruct v; cbn [andb] in *; try exact Hrun.
  specialize (Hrange d eq_refl). cbn [hv_window orDefault] in Hrange.
  unfold subDelta64, subDelta, Float64.sub in *. cbn [valid delta option_map] in *.
  unfold totpSafe in Hsafe. rewrite toDouble_exact by lia.
  exact Hrun.
Qed.

End Exact.

(** ** The claims on [hotpVerify] and [totpVerify], on doubles *)

Section Verify64.

Context `{Imp : Internals}.

(** C6, amended: on safe counters and windows [hotpVerify] returns; it
    visits the counters [counter], [counter + 1], ... in increasing order up
    to [counter + window]; it returns [{valid: true, delta: c - counter}] at
    the first [c] whose code is the submitted one, so that the delta is the
    least matching offset, and [{valid: false}] when no counter of the
    window matches; no code is generated at a counter below [counter]. *)
Theorem hotpVerify_first_match (options : HOTPVerifyOptions) :
  hotpSafe (hv_counter options) (orDefault 0 (hv_window options)) ->
  exists result calls,
    returns (fun fuel => hotpVerify_run64 fuel options) (result, calls) /\
    returns (fun fuel => hotpVerify64 fuel options) result /\
    firstMatch (fun c => hotpGenerate (generateAt options c))
      (hv_code options) (hv_counter options)
      (orDefault 0 (hv_window options)) result calls /\
    Forall (fun c => hv_counter options <= c) calls.
Proof.
  intros Hsafe.
  destruct (hotpVerify_first_match_exact options)
    as (result & calls & Hrun & Hres & Hspec & Hcalls).
  exists result, calls.
  split; [now apply hotpVerify_run64_returns|].
  split; [now apply hotpVerify64_returns|].
  split; assumption.
Qed.

(** C10, amended: on safe counters, with a negative window [hotpVerify]
    returns [{valid: false}], without delta, and generates no code at any
    counter. *)
Theorem hotpVerify_negative_window (options : HOTPVerifyOptions) (w : Z) :
  hv_window options = Some w ->
  w < 0 ->
  hotpSafe (hv_counter options) w ->
  returns (fun fuel => hotpVerify64 fuel options)
    {| valid := false; delta := None |} /\
  returns (fun fuel => hotpVerify_run64 fuel options)
    ({| valid := false; delta := None |}, []).
Proof.
  intros Hw Hneg Hsafe.
  destruct (hotpVerify_negative_window_exact options w Hw Hneg) as [Hres Hrun].
  assert (Hsafe' : hotpSafe (hv_counter options)
                     (orDefault 0 (hv_window options)))
    by (rewrite Hw; exact Hsafe).
  split; [now apply hotpVerify64_returns | now apply hotpVerify_run64_returns].
Qed.

(** C2, amended: on safe counters and windows [totpVerify] derives
    [counter0] from the time and the step, calls [hotpVerify] with the
    counter [counter0 - window] and the window [2 * window], and returns its
    result: a valid one, found at a counter [c], with the delta
    [c - (counter0 - window)] decreased by [window], that is [c - counter0],
    which is 0 for a match at [counter0]; an invalid one as
    [{valid: false}], without delta. *)
Theorem totpVerify_recentres (options : TOTPVerifyOptions) :
  let window := orDefault 0 (tv_window options) in
  let counter0 :=
    generateCounterFromTime (tv_time options) (orDefault 30 (tv_step options)) in
  let adjusted :=
    {| hv_secret := tv_secret options;
       hv_counter := counter0 - window;
       hv_code := tv_code options;
       hv_window := Some (2 * window);
       hv_digits := tv_digits options;
       hv_encoding := tv_encoding options;
       hv_algorithm := tv_algorithm options |} in
  totpSafe counter0 window ->
  (exists c d,
      returns (fun fuel => hotpVerify64 fuel adjusted)
        {| valid := true; delta := Some d |} /\
      d = c - (counter0 - window) /\
      hotpGenerate (generateAt adjusted c) = tv_code options /\
      returns (fun fuel => totpVerify64 fuel options)
        {| valid := true; delta := Some (d - window) |} /\
      d - window = c - counter0)
  \/ (returns (fun fuel => hotpVerify64 fuel adjusted)
        {| valid := false; delta := None |} /\
      returns (fun fuel => totpVerify64 fuel options)
        {| valid := false; delta := None |}).
Proof.
  intros window counter0 adjusted Hsafe.
  assert (Hadjusted : hotpSafe (hv_counter adjusted)
                        (orDefault 0 (hv_window adjusted)))
    by (apply totpSafe_hotpSafe, Hsafe).
  destruct (totpVerify_recentres_exact options)
    as [(c & d & Hhotp & Hd & Hgen & Htotp & Hdelta) | (Hhotp & Htotp)].
  - left. exists c, d.
    split; [now apply hotpVerify64_returns|].
    split; [exact Hd|]. split; [exact Hgen|].
    split; [now apply totpVerify64_returns | exact Hdelta].
  - right.
    split; [now apply hotpVerify64_returns | now apply totpVerify64_returns].
Qed.

(** C7, amended: every result that [hotpVerify] or [totpVerify] returns has
    a delta exactly when it is valid; on safe counters and windows they
    return a result, and a code that no counter of
    [counter .. counter + window] generates gives [{valid: false}], without
    delta. *)
Theorem delta_iff_valid (hotp : HOTPVerifyOptions) (totp : TOTPVerifyOptions) :
  (forall fuel result,
      hotpVerify64 fuel hotp = Some result ->
      (delta result <> None <-> valid result = true))
  /\
  (forall fuel result,
      totpVerify64 fuel totp = Some result ->
      (delta result <> None <-> valid result = true))
  /\
  (hotpSafe (hv_counter hotp) (orDefault 0 (hv_window hotp)) ->
   exists result, returns (fun fuel => hotpVerify64 fuel hotp) result)
  /\
  (totpSafe
     (generateCounterFromTime (tv_time totp) (orDefault 30 (tv_step totp)))
     (orDefault 0 (tv_window totp)) ->
   exists result, returns (fun fuel => totpVerify64 fuel totp) result)
  /\
  (hotpSafe (hv_counter hotp) (orDefault 0 (hv_window hotp)) ->
   (forall c,
       hv_counter hotp <= c <= hv_counter hotp + orDefault 0 (hv_window hotp) ->
       hotpGenerate (generateAt hotp c) <> hv_code hotp) ->
   returns (fun fuel => hotpVerify64 fuel hotp)
     {| valid := false; delta := None |}).
Proof.
  assert (Hshape : forall r, isNumber (delta r) = valid r ->
                             (delta r <> None <-> valid r = true)).
  { intros [v [d|]] Hr; simpl in *; subst v; split; congruence. }
  assert (Hhotp : forall fuel options result,
             hotpVerify64 fuel options = Some result ->
             isNumber (delta result) = valid result).
  { intros fuel options result Hrun. unfold hotpVerify64, hotpVerify_run64 in Hrun.
    cbv zeta in Hrun.
    destruct (hotpVerify_for64 fuel _ _) as [[r calls]|] eqn:Hfor;
      [|discriminate].
    injection Hrun as <-. exact (hotpVerify_for64_shape _ _ _ _ _ Hfor). }
  split; [|split; [|split; [|split]]].
  - intros fuel result Hrun. apply Hshape. exact (Hhotp _ _ _ Hrun).
  - intros fuel result Hrun. apply Hshape. unfold totpVerify64 in Hrun.
    cbv zeta in Hrun.
    destruct (hotpVerify64 fuel _) as [r|] eqn:Hr; [|discriminate].
    apply Hhotp in Hr. rewrite Hr, andb_diag in Hrun.
    destruct r as [[|] [d|]]; cbn [valid delta isNumber] in *; try discriminate;
      injection Hrun as <-; reflexivity.
  - intros Hsafe. destruct (hotpVerify_total hotp) as (result & Hres & _).
    exists result. now apply hotpVerify64_returns.
  - intros Hsafe.
    destruct (delta_iff_valid_exact hotp totp) as (_ & (result & Hres & _) & _).
    exists result. now apply totpVerify64_returns.
  - intros Hsafe Hnone. apply hotpVerify64_returns; [exact Hsafe|].
    exact (proj2 (proj2 (delta_iff_valid_exact hotp totp)) Hnone).
Qed.

(** C5, amended: on safe counters and windows, when no counter
    [counter + j] of the window with [j < k] generates the code of
    [counter + k], [hotpVerify] with window [w] accepts that code with delta
    [k] if [k <= w] and rejects it otherwise. *)
Theorem hotpVerify_lookahead (secret : string) (counter k w : Z)
    (digits : option Z) (encoding : option Encoding)
    (algorithm : option Algorithm) :
  let gen c :=
    hotpGenerate (mkHOTPGenerateOptions secret c digits encoding algorithm) in
  0 <= k ->
  0 <= w ->
  hotpSafe counter w ->
  (forall j, 0 <= j <= w -> j < k -> gen (counter + j) <> gen (counter + k)) ->
  returns
    (fun fuel =>
       hotpVerify64 fuel
         (mkHOTPVerifyOptions secret counter (gen (counter + k)) (Some w) digits
            encoding algorithm))
    (if k <=? w
     then {| valid := true; delta := Some k |}
     else {| valid := false; delta := None |}).
Proof.
  intros gen Hk Hw Hsafe Hfresh.
  apply hotpVerify64_returns; [exact Hsafe|].
  exact (hotpVerify_lookahead_exact secret counter k w digits encoding algorithm
           Hk Hw Hfresh).
Qed.

End Verify64.

(** ** More on [hotpVerify] and [totpVerify], on doubles *)

Section VerifyMore64.

Context `{Imp : Internals}.

(** More fuel does not change what the loop on doubles returns. *)
Lemma hotpVerify_for64_more_fuel (opts : HOTPVerifyOpts) : forall fuel c r,
  hotpVerify_for64 fuel opts c = Some r ->
  hotpVerify_for64 (S fuel) opts c = Some r.
Proof.
  induction fuel as [|fuel IH]; intros c r Hrun; [discriminate|].
  rewrite hotpVerify_for64_S in Hrun. rewrite (hotpVerify_for64_S (S fuel)).
  destruct (c <=? Float64.add (vo_counter opts) (vo_window opts));
    [|exact Hrun].
  destruct (String.eqb _ _); [exact Hrun|].
  destruct (hotpVerify_for64 fuel opts (Float64.add c 1)) as [r'|] eqn:Hrest;
    [|discriminate].
  now rewrite (IH _ _ Hrest).
Qed.

Lemma hotpVerify_for64_fuel_le (opts : HOTPVerifyOpts) (c : Z) r :
  forall fuel fuel', (fuel <= fuel')%nat ->
  hotpVerify_for64 fuel opts c = Some r ->
  hotpVerify_for64 fuel' opts c = Some r.
Proof.
  intros fuel fuel' Hle Hrun. induction Hle as [|fuel' _ IH]; [exact Hrun|].
  now apply hotpVerify_for64_more_fuel.
Qed.

(** [hotpVerify] on doubles returns one result at most. *)
Lemma hotpVerify_run64_unique (options : HOTPVerifyOptions) r r' :
  returns (fun fuel => hotpVerify_run64 fuel options) r ->
  returns (fun fuel => hotpVerify_run64 fuel options) r' ->
  r = r'.
Proof.
  intros [fuel Hr] [fuel' Hr']. unfold hotpVerify_run64 in *. cbv zeta in *.
  apply (hotpVerify_for64_fuel_le _ _ _ _ (Nat.max fuel fuel')
           (Nat.le_max_l _ _)) in Hr.
  apply (hotpVerify_for64_fuel_le _ _ _ _ (Nat.max fuel fuel')
           (Nat.le_max_r _ _)) in Hr'.
  congruence.
Qed.

(** A code that no counter generates is not accepted, whatever the counter
    and the window. *)
Lemma hotpVerify_for64_rejects (opts : HOTPVerifyOpts) :
  (forall c, hotpGenerate (hotpVerify_candidate opts c) <> vo_code opts) ->
  forall fuel c r calls,
    hotpVerify_for64 fuel opts c = Some (r, calls) ->
    r = {| valid := false; delta := None |}.
Proof.
  intros Hnone. induction fuel as [|fuel IH]; intros c r calls Hrun;
    [discriminate|].
  rewrite hotpVerify_for64_S in Hrun.
  destruct (c <=? Float64.add (vo_counter opts) (vo_window opts)).
  - destruct (String.eqb _ _) eqn:Hcode.
    + apply String.eqb_eq in Hcode. exfalso. exact (Hnone c Hcode).
    + destruct (hotpVerify_for64 fuel opts (Float64.add c 1))
        as [[r' calls']|] eqn:Hrest; [|discriminate].
      injection Hrun as <- _. exact (IH _ _ _ Hrest).
  - now injection Hrun as <- _.
Qed.

Lemma hotpVerify64_rejects (options : HOTPVerifyOptions) :
  (forall c, hotpGenerate (generateAt options c) <> hv_code options) ->
  forall fuel r,
    hotpVerify64 fuel options = Some r ->
    r = {| valid := false; delta := None |}.
Proof.
  intros Hnone fuel r Hrun. unfold hotpVerify64, hotpVerify_run64 in Hrun.
  cbv zeta in Hrun.
  destruct (hotpVerify_for64 fuel _ _) as [[r' calls]|] eqn:Hfor;
    [|discriminate].
  injection Hrun as <-.
  apply (hotpVerify_for64_rejects (hotpVerify_opts options) Hnone _ _ _ _ Hfor).
Qed.

Lemma totpVerify64_rejects (options : TOTPVerifyOptions) :
  (forall c,
      hotpGenerate
        (mkHOTPGenerateOptions (tv_secret options) c
           (Some (orDefault 6 (tv_digits options)))
           (Some (orDefault enc_ascii (tv_encoding options)))
           (Some (orDefault sha1 (tv_algorithm options))))
      <> tv_code options) ->
  forall fuel r,
    totpVerify64 fuel options = Some r ->
    r = {| valid := false; delta := None |}.
Proof.
  intros Hnone fuel r Hrun. unfold totpVerify64 in Hrun. cbv zeta in Hrun.
  destruct (hotpVerify64 fuel _) as [r'|] eqn:Hhotp; [|discriminate].
  apply hotpVerify64_rejects in Hhotp; [|exact Hnone].
  subst r'. cbn [valid andb] in Hrun. now injection Hrun as <-.
Qed.

(** A match at the first counter, with the loop condition true there. *)
Lemma hotpVerify_run64_first (options : HOTPVerifyOptions) (fuel : nat) :
  (hv_counter options
   <=? Float64.add (hv_counter options) (orDefault 0 (hv_window options)))
  = true ->
  hotpGenerate (generateAt options (hv_counter options)) = hv_code options ->
  hotpVerify_run64 (S fuel) options
  = Some ({| valid := true;
             delta := Some (Float64.sub (hv_counter options)
                              (hv_counter options)) |},
          [hv_counter options]).
Proof.
  intros Hguard Hcode. unfold hotpVerify_run64. cbv zeta.
  rewrite hotpVerify_for64_S.
  change (vo_counter (hotpVerify_opts options)) with (hv_counter options).
  change (vo_window (hotpVerify_opts options))
    with (orDefault 0 (hv_window options)).
  rewrite Hguard, hotpGenerate_candidate, Hcode.
  change (vo_code (hotpVerify_opts options)) with (hv_code options).
  now rewrite String.eqb_refl.
Qed.

(** X1: on safe counters and windows [hotpVerify] accepts exactly the codes
    that a counter of [counter .. counter + window] generates; the delta of
    an accepted code lies in [0 .. window] and the counter [counter + delta]
    generates the code. *)
Theorem hotpVerify_accepts_iff (options : HOTPVerifyOptions) :
  let counter := hv_counter options in
  let window := orDefault 0 (hv_window options) in
  let gen c := hotpGenerate (generateAt options c) in
  hotpSafe counter window ->
  exists result,
    returns (fun fuel => hotpVerify64 fuel options) result /\
    (valid result = true <->
     exists c, counter <= c <= counter + window /\ gen c = hv_code options) /\
    (valid result = true ->
     exists d, delta result = Some d /\ 0 <= d <= window /\
               gen (counter + d) = hv_code options).
Proof.
  intros counter window gen Hsafe.
  destruct (hotpVerify_accepts_iff_exact options) as (result & Hres & Hrest).
  exists result. split; [now apply hotpVerify64_returns | exact Hrest].
Qed.

(** X3: on safe counters and windows [hotpVerify] calls [hotpGenerate] at
    the counters [counter], [counter + 1], ... and at no other: [delta + 1]
    times when it accepts, [window + 1] times when it rejects with a
    non-negative window, and never more than [window + 1] times. *)
Theorem hotpVerify_calls (options : HOTPVerifyOptions) :
  let counter := hv_counter options in
  let window := orDefault 0 (hv_window options) in
  hotpSafe counter window ->
  exists result calls,
    returns (fun fuel => hotpVerify_run64 fuel options) (result, calls) /\
    Z.of_nat (List.length calls) <= Z.max 0 (window + 1) /\
    Forall (fun c => counter <= c <= counter + window) calls /\
    match delta result with
    | Some d => calls = countersFrom counter (Z.to_nat (d + 1))
    | None => calls = countersFrom counter (Z.to_nat (window + 1))
    end.
Proof.
  intros counter window Hsafe.
  destruct (hotpVerify_calls_exact options) as (result & calls & Hrun & Hrest).
  exists result, calls.
  split; [now apply hotpVerify_run64_returns | exact Hrest].
Qed.

(** X4: on safe counters and windows [totpVerify] accepts exactly the codes
    that a counter of [counter0 - window .. counter0 + window] generates,
    [counter0] being the counter of the time: it reports the first such
    counter [c] as the delta [c - counter0], between [- window] and
    [window]; without one it rejects. *)
Theorem totpVerify_two_sided (options : TOTPVerifyOptions) :
  let window := orDefault 0 (tv_window options) in
  let counter0 :=
    generateCounterFromTime (tv_time options) (orDefault 30 (tv_step options)) in
  let gen c :=
    hotpGenerate
      (mkHOTPGenerateOptions (tv_secret options) c (tv_digits options)
         (tv_encoding options) (tv_algorithm options)) in
  totpSafe counter0 window ->
  (exists c,
      counter0 - window <= c <= counter0 + window /\
      gen c = tv_code options /\
      (forall j, counter0 - window <= j < c -> gen j <> tv_code options) /\
      - window <= c - counter0 <= window /\
      returns (fun fuel => totpVerify64 fuel options)
        {| valid := true; delta := Some (c - counter0) |})
  \/
  ((forall c, counter0 - window <= c <= counter0 + window ->
              gen c <> tv_code options) /\
   returns (fun fuel => totpVerify64 fuel options)
     {| valid := false; delta := None |}).
Proof.
  intros window counter0 gen Hsafe.
  destruct (totpVerify_two_sided_exact options)
    as [(c & Hc & Hgen & Hfirst & Hd & Hrun) | (Hnone & Hrun)].
  - left. exists c. repeat (split; [assumption|]).
    now apply totpVerify64_returns.
  - right. split; [exact Hnone | now apply totpVerify64_returns].
Qed.

(** X5: on safe counters, with a negative window [totpVerify] rejects every
    code. *)
Theorem totpVerify_negative_window (options : TOTPVerifyOptions) (w : Z) :
  tv_window options = Some w ->
  w < 0 ->
  totpSafe
    (generateCounterFromTime (tv_time options) (orDefault 30 (tv_step options)))
    w ->
  returns (fun fuel => totpVerify64 fuel options)
    {| valid := false; delta := None |}.
Proof.
  intros Hw Hneg Hsafe. apply totpVerify64_returns.
  - rewrite Hw. exact Hsafe.
  - exact (totpVerify_negative_window_exact options w Hw Hneg).
Qed.

(** X6: on safe counters and windows, a code that [totpGenerate] makes for a
    time whose counter is at most [window] steps before or after the counter
    of the time of verification is accepted by [totpVerify], with a delta
    between [- window] and the distance of the two counters. *)
Theorem totpVerify_accepts_nearby (secret : string) (T T' : Z)
    (step digits : option Z) (encoding : option Encoding)
    (algorithm : option Algorithm) (w : Z) :
  let counter0 := generateCounterFromTime (Some T) (orDefault 30 step) in
  let counter' := generateCounterFromTime (Some T') (orDefault 30 step) in
  counter0 - w <= counter' <= counter0 + w ->
  totpSafe counter0 w ->
  exists d,
    - w <= d <= counter' - counter0 /\
    returns
      (fun fuel =>
         totpVerify64 fuel
           (mkTOTPVerifyOptions secret
              (totpGenerate
                 (mkTOTPGenerateOptions secret (Some T') step digits encoding
                    algorithm))
              (Some w) (Some T) step digits encoding algorithm))
      {| valid := true; delta := Some d |}.
Proof.
  intros counter0 counter' Hnear Hsafe.
  destruct (totpVerify_accepts_nearby_exact secret T T' step digits encoding
              algorithm w Hnear) as (d & Hd & Hrun).
  exists d. split; [exact Hd|].
  apply totpVerify64_returns; [exact Hsafe | exact Hrun].
Qed.

(** X11: [hotpVerify] never accepts a submitted code that is empty or has
    more than [digits] characters, when [digits] is at least 1; on safe
    counters and windows it returns [{valid: false}]. *)
Theorem hotpVerify_rejects_wrong_length (options : HOTPVerifyOptions) :
  1 <= orDefault 6 (hv_digits options) ->
  String.length (hv_code options) = 0%nat
  \/ orDefault 6 (hv_digits options) < Z.of_nat (String.length (hv_code options)) ->
  (forall fuel result,
      hotpVerify64 fuel options = Some result ->
      result = {| valid := false; delta := None |})
  /\
  (hotpSafe (hv_counter options) (orDefault 0 (hv_window options)) ->
   returns (fun fuel => hotpVerify64 fuel options)
     {| valid := false; delta := None |}).
Proof.
  intros Hdigits Hlength. split.
  - apply hotpVerify64_rejects. intros c Hcode.
    pose proof (hotpGenerate_length_bounds (generateAt options c) Hdigits)
      as Hgen.
    rewrite Hcode in Hgen. cbn [generateAt hg_digits] in Hgen. lia.
  - intros Hsafe. apply hotpVerify64_returns; [exact Hsafe|].
    exact (hotpVerify_rejects_wrong_length_exact options Hdigits Hlength).
Qed.

(** X12: [totpVerify] never accepts a submitted code that is empty or has
    more than [digits] characters, when [digits] is at least 1; on safe
    counters and windows it returns [{valid: false}]. *)
Theorem totpVerify_rejects_wrong_length (options : TOTPVerifyOptions) :
  1 <= orDefault 6 (tv_digits options) ->
  String.length (tv_code options) = 0%nat
  \/ orDefault 6 (tv_digits options) < Z.of_nat (String.length (tv_code options)) ->
  (forall fuel result,
      totpVerify64 fuel options = Some result ->
      result = {| valid := false; delta := None |})
  /\
  (totpSafe
     (generateCounterFromTime (tv_time options) (orDefault 30 (tv_step options)))
     (orDefault 0 (tv_window options)) ->
   returns (fun fuel => totpVerify64 fuel options)
     {| valid := false; delta := None |}).
Proof.
  intros Hdigits Hlength. split.
  - apply totpVerify64_rejects. intros c Hcode.
    match type of Hcode with
    | hotpGenerate ?o = _ =>
        pose proof (hotpGenerate_length_bounds o Hdigits) as Hgen
    end.
    rewrite Hcode in Hgen. cbn [hg_digits orDefault] in Hgen. lia.
  - intros Hsafe. apply totpVerify64_returns; [exact Hsafe|].
    exact (totpVerify_rejects_wrong_length_exact options Hdigits Hlength).
Qed.

(** X13: when truncated values are not negative, [hotpVerify] never accepts
    a submitted code in which a character is not a decimal digit; on safe
    counters and windows it returns [{valid: false}]. *)
Theorem hotpVerify_rejects_non_digit (options : HOTPVerifyOptions) :
  (forall hash, 0 <= dynamicTruncate hash) ->
  forallChars isDecimalDigit (hv_code options) = false ->
  (forall fuel result,
      hotpVerify64 fuel options = Some result ->
      result = {| valid := false; delta := None |})
  /\
  (hotpSafe (hv_counter options) (orDefault 0 (hv_window options)) ->
   returns (fun fuel => hotpVerify64 fuel options)
     {| valid := false; delta := None |}).
Proof.
  intros Hvalue Hcode. split.
  - apply hotpVerify64_rejects. intros c Hgen.
    rewrite <- Hgen in Hcode. unfold hotpGenerate in Hcode. cbv zeta in Hcode.
    rewrite forallChars_substr_Number_toString in Hcode by apply Hvalue.
    discriminate Hcode.
  - intros Hsafe. apply hotpVerify64_returns; [exact Hsafe|].
    exact (hotpVerify_rejects_non_digit_exact options Hvalue Hcode).
Qed.

(** X19: at one time of verification and on safe counters and windows, a
    code that [totpVerify] accepts with a window is accepted with every
    larger window, with a delta that is not greater (the search starts
    earlier). *)
Theorem totpVerify_window_monotone (secret code : string) (w w' T : Z)
    (step digits : option Z) (encoding : option Encoding)
    (algorithm : option Algorithm) (d : Z) :
  let counter0 := generateCounterFromTime (Some T) (orDefault 30 step) in
  w <= w' ->
  totpSafe counter0 w ->
  totpSafe counter0 w' ->
  returns
    (fun fuel =>
       totpVerify64 fuel
         (mkTOTPVerifyOptions secret code (Some w) (Some T) step digits
            encoding algorithm))
    {| valid := true; delta := Some d |} ->
  exists d',
    d' <= d /\
    returns
      (fun fuel =>
         totpVerify64 fuel
           (mkTOTPVerifyOptions secret code (Some w') (Some T) step digits
              encoding algorithm))
      {| valid := true; delta := Some d' |}.
Proof.
  intros counter0 Hle Hsafe Hsafe' [fuel Hrun].
  apply totpVerify64_exact in Hrun; [|exact Hsafe].
  destruct (totpVerify_window_monotone_exact secret code w w' (Some T) step
              digits encoding algorithm d Hle Hrun) as (d' & Hd' & Hrun').
  exists d'. split; [exact Hd'|].
  apply totpVerify64_returns; [exact Hsafe' | exact Hrun'].
Qed.

End VerifyMore64.

(** ** The round trips on doubles *)

Section RoundTrip64.

Context `{Imp : Internals}.

(** With the window 0 [hotpVerify] accepts the code of its counter with
    delta 0, at every counter that is a double. *)
Lemma hotpVerify64_hotpGenerate (secret : string) (counter : Z)
    (digits : option Z) (encoding : option Encoding)
    (algorithm : option Algorithm) (fuel : nat) :
  Float64.toDouble counter = counter ->
  hotpVerify64 (S fuel)
    (mkHOTPVerifyOptions secret counter
       (hotpGenerate
          (mkHOTPGenerateOptions secret counter digits encoding algorithm))
       (Some 0) digits encoding algorithm)
  = Some {| valid := true; delta := Some 0 |}.
Proof.
  intros Hdouble. unfold hotpVerify64.
  rewrite hotpVerify_run64_first.
  - cbn [option_map fst hv_counter]. unfold Float64.sub.
    now rewrite Z.sub_diag.
  - cbn [hv_counter hv_window orDefault]. unfold Float64.add.
    rewrite Z.add_0_r, Hdouble. apply Z.leb_refl.
  - reflexivity.
Qed.

(** With the window 0 [totpVerify] accepts the code of its time with delta
    0, at every time whose counter is a double. *)
Lemma totpVerify64_totpGenerate (secret : string) (time step digits : option Z)
    (encoding : option Encoding) (algorithm : option Algorithm) (fuel : nat) :
  let counter0 := generateCounterFromTime time (orDefault 30 step) in
  Float64.toDouble counter0 = counter0 ->
  totpVerify64 (S fuel)
    (mkTOTPVerifyOptions secret
       (hotpGenerate
          (mkHOTPGenerateOptions secret counter0 digits encoding algorithm))
       (Some 0) time step digits encoding algorithm)
  = Some {| valid := true; delta := Some 0 |}.
Proof.
  intros counter0 Hdouble. unfold totpVerify64. cbv zeta.
  match goal with
  | |- context [tvo_window (totpVerify_opts ?o)] =>
      change (tvo_window (totpVerify_opts o)) with 0;
      change (generateCounterFromTime (tvo_time (totpVerify_opts o))
                (tvo_step (totpVerify_opts o))) with counter0
  end.
  change (Float64.mul 0 2) with 0.
  replace (Float64.sub counter0 0) with counter0
    by (unfold Float64.sub; now rewrite Z.sub_0_r, Hdouble).
  cbn [subDelta64 option_map].
  match goal with
  | |- match hotpVerify64 _ ?o with _ => _ end = _ =>
      rewrite (hotpVerify64_ext (S fuel) o
                 (mkHOTPVerifyOptions secret counter0
                    (hotpGenerate
                       (mkHOTPGenerateOptions secret counter0 digits encoding
                          algorithm))
                    (Some 0) digits encoding algorithm))
  end.
  - now rewrite hotpVerify64_hotpGenerate.
  - unfold hotpVerify_opts, totpVerify_hotp.
    cbn [hv_secret hv_counter hv_code hv_window hv_digits hv_encoding
         hv_algorithm tvo_secret tvo_code tvo_digits tvo_encoding
         tvo_algorithm tv_secret tv_code tv_digits tv_encoding tv_algorithm
         orDefault].
    destruct digits, encoding, algorithm; reflexivity.
Qed.

End RoundTrip64.

(** ** Test vectors on doubles *)

Section Vectors64.

Local Existing Instance rfc4226.

Ltac safe := unfold hotpSafe, totpSafe; vm_compute; intuition discriminate.

(** Roundings to the nearest double, to the even one of two nearest. *)
Lemma toDouble_vectors :
  Float64.toDouble (9007199254740993) = 9007199254740992 /\
  Float64.toDouble (9007199254740995) = 9007199254740996 /\
  Float64.toDouble (18014398509481983) = 18014398509481984 /\
  Float64.toDouble (18014398509481985) = 18014398509481984 /\
  Float64.toDouble (18014398509481986) = 18014398509481984 /\
  Float64.toDouble (18014398509481990) = 18014398509481992 /\
  Float64.toDouble (36028797018963966) = 36028797018963968 /\
  Float64.toDouble (-9007199254740993) = -9007199254740992 /\
  Float64.toDouble (9007199254740991) = 9007199254740991 /\
  Float64.toDouble (18446744073709551615) = 18446744073709551616.
Proof. repeat split; vm_compute; reflexivity. Qed.

(** [9007199254740991] is [2^53 - 1]: the loop reaches [2^53], where
    [c += 1] leaves [c] as it is, and does not end on a code that is not
    generated there. *)
Lemma hotpVerify_run64_stuck :
  diverges
    (fun fuel =>
       hotpVerify_run64 fuel
         (mkHOTPVerifyOptions rfc4226_secret 9007199254740991 "abc" (Some 1)
            None None None)).
Proof.
  unfold hotpVerify_run64. cbv zeta.
  apply hotpVerify_for64_miss; [vm_compute; reflexivity..|].
  apply hotpVerify_for64_stuck; vm_compute; reflexivity.
Qed.

Lemma totpVerify64_stuck :
  diverges
    (fun fuel =>
       totpVerify64 fuel
         (mkTOTPVerifyOptions rfc4226_secret "abc" (Some 1)
            (Some 9007199254740991) (Some 1) None None None)).
Proof.
  assert (Hloop :
            diverges
              (fun fuel =>
                 hotpVerify_run64 fuel
                   (mkHOTPVerifyOptions rfc4226_secret 9007199254740990 "abc"
                      (Some 2) None None None))).
  { unfold hotpVerify_run64. cbv zeta.
    apply hotpVerify_for64_miss; [vm_compute; reflexivity..|].
    apply hotpVerify_for64_miss; [vm_compute; reflexivity..|].
    apply hotpVerify_for64_stuck; vm_compute; reflexivity. }
  intros fuel. unfold totpVerify64. cbv zeta.
  match goal with
  | |- match hotpVerify64 fuel ?o with _ => _ end = None =>
      rewrite (hotpVerify64_ext fuel o
                 (mkHOTPVerifyOptions rfc4226_secret 9007199254740990 "abc"
                    (Some 2) None None None))
        by (vm_compute; reflexivity)
  end.
  unfold hotpVerify64. now rewrite (Hloop fuel).
Qed.

(** Beyond 2^53 [counter -= opts.window] leaves the counter as it is: at
    the counter [2^54 = 18014398509481984] of the time, with the window 1,
    the code of that counter is reported with the delta -1, and at
    [2^55 = 36028797018963968], with the window -1, with the delta 1. *)
Lemma totpVerify64_rounded :
  totpVerify64 1
    (mkTOTPVerifyOptions rfc4226_secret "766594" (Some 1)
       (Some 18014398509481984) (Some 1) None None None)
  = Some {| valid := true; delta := Some (-1) |} /\
  totpGenerate
    (mkTOTPGenerateOptions rfc4226_secret (Some 18014398509481984) (Some 1)
       None None None)
  = "766594" /\
  totpVerify64 1
    (mkTOTPVerifyOptions rfc4226_secret "228280" (Some (-1))
       (Some 36028797018963968) (Some 1) None None None)
  = Some {| valid := true; delta := Some 1 |} /\
  totpGenerate
    (mkTOTPGenerateOptions rfc4226_secret (Some 36028797018963968) (Some 1)
       None None None)
  = "228280".
Proof. repeat split; vm_compute; reflexivity. Qed.

(** C6 as stated fails: at the counter [2^53 - 1 = 9007199254740991], with
    the window 1 and a code that none of the counters generates, the loop
    stays at [2^53] and [hotpVerify] does not return. *)
Lemma hotpVerify_first_match_stuck :
  ~ (forall (Imp : Internals) (options : HOTPVerifyOptions),
        exists result calls,
          returns (fun fuel => hotpVerify_run64 fuel options) (result, calls) /\
          returns (fun fuel => hotpVerify64 fuel options) result /\
          firstMatch (fun c => hotpGenerate (generateAt options c))
            (hv_code options) (hv_counter options)
            (orDefault 0 (hv_window options)) result calls /\
          Forall (fun c => hv_counter options <= c) calls).
Proof.
  intros Hclaim.
  destruct (Hclaim rfc4226
              (mkHOTPVerifyOptions rfc4226_secret 9007199254740991 "abc"
                 (Some 1) None None None))
    as (result & calls & [fuel Hrun] & _).
  rewrite (hotpVerify_run64_stuck fuel) in Hrun. discriminate Hrun.
Qed.

(** C7 as stated fails: at the counter [2^53 - 1 = 9007199254740991], with
    the window 1, the code [abc] matches no counter of
    [counter .. counter + window], and [hotpVerify] returns no result. *)
Lemma delta_iff_valid_stuck :
  ~ (forall (Imp : Internals) (hotp : HOTPVerifyOptions),
        (forall c,
            hv_counter hotp <= c <= hv_counter hotp + orDefault 0 (hv_window hotp) ->
            hotpGenerate (generateAt hotp c) <> hv_code hotp) ->
        returns (fun fuel => hotpVerify64 fuel hotp)
          {| valid := false; delta := None |}).
Proof.
  intros Hclaim.
  destruct (Hclaim rfc4226
              (mkHOTPVerifyOptions rfc4226_secret 9007199254740991 "abc"
                 (Some 1) None None None)) as [fuel Hrun].
  - intros c Hc. cbn [hv_counter hv_window hv_code orDefault] in *.
    assert (Hcases : c = 9007199254740991 \/ c = 9007199254740992) by lia.
    destruct Hcases as [-> | ->]; vm_compute; discriminate.
  - unfold hotpVerify64 in Hrun.
    rewrite (hotpVerify_run64_stuck fuel) in Hrun. discriminate Hrun.
Qed.

(** C10 as stated fails: at the counter [2^54 = 18014398509481984], with
    the window -1, [opts.counter + opts.window] is rounded to [2^54], the
    loop body runs and the code of the counter is accepted. *)
Lemma hotpVerify_negative_window_rounded :
  ~ (forall (Imp : Internals) (options : HOTPVerifyOptions) (w : Z),
        hv_window options = Some w ->
        w < 0 ->
        returns (fun fuel => hotpVerify64 fuel options)
          {| valid := false; delta := None |} /\
        returns (fun fuel => hotpVerify_run64 fuel options)
          ({| valid := false; delta := None |}, [])).
Proof.
  intros Hclaim.
  destruct (Hclaim rfc4226
              (mkHOTPVerifyOptions rfc4226_secret 18014398509481984 "766594"
                 (Some (-1)) None None None) (-1) eq_refl eq_refl)
    as [_ [fuel Hrun]].
  destruct fuel as [|fuel]; [discriminate Hrun|].
  rewrite hotpVerify_run64_first in Hrun by (vm_compute; reflexivity).
  discriminate Hrun.
Qed.

(** C2 as stated fails: at the time [2^53 - 1 = 9007199254740991], with the
    step 1 and the window 1, [hotpVerify] is called with the counter
    [2^53 - 2] and the window 2, its loop stays at [2^53] on a code that is
    not generated there, and [totpVerify] does not return. *)
Lemma totpVerify_recentres_stuck :
  ~ (forall (Imp : Internals) (options : TOTPVerifyOptions),
        let window := orDefault 0 (tv_window options) in
        let counter0 :=
          generateCounterFromTime (tv_time options)
            (orDefault 30 (tv_step options)) in
        let adjusted :=
          {| hv_secret := tv_secret options;
             hv_counter := counter0 - window;
             hv_code := tv_code options;
             hv_window := Some (2 * window);
             hv_digits := tv_digits options;
             hv_encoding := tv_encoding options;
             hv_algorithm := tv_algorithm options |} in
        (exists c d,
            returns (fun fuel => hotpVerify64 fuel adjusted)
              {| valid := true; delta := Some d |} /\
            d = c - (counter0 - window) /\
            hotpGenerate (generateAt adjusted c) = tv_code options /\
            returns (fun fuel => totpVerify64 fuel options)
              {| valid := true; delta := Some (d - window) |} /\
            d - window = c - counter0)
        \/ (returns (fun fuel => hotpVerify64 fuel adjusted)
              {| valid := false; delta := None |} /\
            returns (fun fuel => totpVerify64 fuel options)
              {| valid := false; delta := None |})).
Proof.
  intros Hclaim.
  destruct (Hclaim rfc4226
              (mkTOTPVerifyOptions rfc4226_secret "abc" (Some 1)
                 (Some 9007199254740991) (Some 1) None None None))
    as [(c & d & _ & _ & _ & [fuel Hrun] & _) | (_ & [fuel Hrun])];
    rewrite (totpVerify64_stuck fuel) in Hrun; discriminate Hrun.
Qed.

Lemma hotpVerify_first_match_witness :
  let options :=
    mkHOTPVerifyOptions rfc4226_secret 0 "359152" (Some 3) None None None in
  hotpSafe (hv_counter options) (orDefault 0 (hv_window options)) /\
  exists result calls,
    returns (fun fuel => hotpVerify_run64 fuel options) (result, calls) /\
    returns (fun fuel => hotpVerify64 fuel options) result /\
    firstMatch (fun c => hotpGenerate (generateAt options c))
      (hv_code options) (hv_counter options)
      (orDefault 0 (hv_window options)) result calls /\
    Forall (fun c => hv_counter options <= c) calls.
Proof.
  intros options.
  assert (Hsafe : hotpSafe (hv_counter options)
                    (orDefault 0 (hv_window options))) by safe.
  split; [exact Hsafe|].
  exact (hotpVerify_first_match options Hsafe).
Defined.

Lemma hotpVerify_negative_window_witness :
  let options :=
    mkHOTPVerifyOptions rfc4226_secret 0 "755224" (Some (-1)) None None None in
  hv_window options = Some (-1) /\
  -1 < 0 /\
  hotpSafe (hv_counter options) (-1) /\
  returns (fun fuel => hotpVerify64 fuel options)
    {| valid := false; delta := None |} /\
  returns (fun fuel => hotpVerify_run64 fuel options)
    ({| valid := false; delta := None |}, []).
Proof.
  intros options.
  assert (Hsafe : hotpSafe (hv_counter options) (-1)) by safe.
  split; [reflexivity|]. split; [reflexivity|]. split; [exact Hsafe|].
  exact (hotpVerify_negative_window options (-1) eq_refl eq_refl Hsafe).
Defined.

Lemma totpVerify_recentres_witness :
  let options :=
    mkTOTPVerifyOptions rfc4226_secret "359152" (Some 1) (Some 119) None None
      None None in
  let window := orDefault 0 (tv_window options) in
  let counter0 :=
    generateCounterFromTime (tv_time options) (orDefault 30 (tv_step options)) in
  let adjusted :=
    {| hv_secret := tv_secret options;
       hv_counter := counter0 - window;
       hv_code := tv_code options;
       hv_window := Some (2 * window);
       hv_digits := tv_digits options;
       hv_encoding := tv_encoding options;
       hv_algorithm := tv_algorithm options |} in
  totpSafe counter0 window /\
  ((exists c d,
       returns (fun fuel => hotpVerify64 fuel adjusted)
         {| valid := true; delta := Some d |} /\
       d = c - (counter0 - window) /\
       hotpGenerate (generateAt adjusted c) = tv_code options /\
       returns (fun fuel => totpVerify64 fuel options)
         {| valid := true; delta := Some (d - window) |} /\
       d - window = c - counter0)
   \/ (returns (fun fuel => hotpVerify64 fuel adjusted)
         {| valid := false; delta := None |} /\
       returns (fun fuel => totpVerify64 fuel options)
         {| valid := false; delta := None |})).
Proof.
  intros options window counter0 adjusted.
  assert (Hsafe : totpSafe counter0 window) by safe.
  split; [exact Hsafe|].
  exact (totpVerify_recentres options Hsafe).
Defined.

Lemma delta_iff_valid_witness :
  let hotp :=
    mkHOTPVerifyOptions rfc4226_secret 0 "000000" (Some 1) None None None in
  hotpSafe (hv_counter hotp) (orDefault 0 (hv_window hotp)) /\
  (forall c,
      hv_counter hotp <= c <= hv_counter hotp + orDefault 0 (hv_window hotp) ->
      hotpGenerate (generateAt hotp c) <> hv_code hotp) /\
  returns (fun fuel => hotpVerify64 fuel hotp)
    {| valid := false; delta := None |}.
Proof.
  intros hotp.
  assert (Hsafe : hotpSafe (hv_counter hotp) (orDefault 0 (hv_window hotp)))
    by safe.
  assert (Hnone : forall c,
             hv_counter hotp <= c <= hv_counter hotp + orDefault 0 (hv_window hotp) ->
             hotpGenerate (generateAt hotp c) <> hv_code hotp).
  { intros c Hc. simpl in Hc.
    assert (Hcases : c = 0 \/ c = 1) by lia.
    destruct Hcases as [-> | ->]; vm_compute; discriminate. }
  split; [exact Hsafe|]. split; [exact Hnone|].
  exact (proj2 (proj2 (proj2 (proj2 (delta_iff_valid hotp
           (mkTOTPVerifyOptions rfc4226_secret "000000" None None None None
              None None))))) Hsafe Hnone).
Defined.

Lemma hotpVerify_lookahead_witness :
  let gen c :=
    hotpGenerate (mkHOTPGenerateOptions rfc4226_secret c None None None) in
  0 <= 1 /\
  0 <= 1 /\
  hotpSafe 0 1 /\
  (forall j, 0 <= j <= 1 -> j < 1 -> gen (0 + j) <> gen (0 + 1)) /\
  returns
    (fun fuel =>
       hotpVerify64 fuel
         (mkHOTPVerifyOptions rfc4226_secret 0 (gen (0 + 1)) (Some 1) None None
            None))
    {| valid := true; delta := Some 1 |}.
Proof.
  intros gen.
  assert (Hsafe : hotpSafe 0 1) by safe.
  assert (Hfresh : forall j, 0 <= j <= 1 -> j < 1 -> gen (0 + j) <> gen (0 + 1)).
  { intros j Hj Hlt. assert (j = 0) as -> by lia. vm_compute. discriminate. }
  split; [discriminate|]. split; [discriminate|]. split; [exact Hsafe|].
  split; [exact Hfresh|].
  exact (hotpVerify_lookahead rfc4226_secret 0 1 1 None None None
           ltac:(discriminate) ltac:(discriminate) Hsafe Hfresh).
Defined.

Lemma hotpVerify_accepts_iff_witness :
  let options :=
    mkHOTPVerifyOptions rfc4226_secret 0 "359152" (Some 3) None None None in
  let counter := hv_counter options in
  let window := orDefault 0 (hv_window options) in
  let gen c := hotpGenerate (generateAt options c) in
  hotpSafe counter window /\
  exists result,
    returns (fun fuel => hotpVerify64 fuel options) result /\
    (valid result = true <->
     exists c, counter <= c <= counter + window /\ gen c = hv_code options) /\
    (valid result = true ->
     exists d, delta result = Some d /\ 0 <= d <= window /\
               gen (counter + d) = hv_code options).
Proof.
  intros options counter window gen.
  assert (Hsafe : hotpSafe counter window) by safe.
  split; [exact Hsafe|].
  exact (hotpVerify_accepts_iff options Hsafe).
Defined.

Lemma hotpVerify_calls_witness :
  let options :=
    mkHOTPVerifyOptions rfc4226_secret 0 "359152" (Some 3) None None None in
  let counter := hv_counter options in
  let window := orDefault 0 (hv_window options) in
  hotpSafe counter window /\
  exists result calls,
    returns (fun fuel => hotpVerify_run64 fuel options) (result, calls) /\
    Z.of_nat (List.length calls) <= Z.max 0 (window + 1) /\
    Forall (fun c => counter <= c <= counter + window) calls /\
    match delta result with
    | Some d => calls = countersFrom counter (Z.to_nat (d + 1))
    | None => calls = countersFrom counter (Z.to_nat (window + 1))
    end.
Proof.
  intros options counter window.
  assert (Hsafe : hotpSafe counter window) by safe.
  split; [exact Hsafe|].
  exact (hotpVerify_calls options Hsafe).
Defined.

Lemma totpVerify_two_sided_witness :
  let options :=
    mkTOTPVerifyOptions rfc4226_secret "359152" (Some 1) (Some 119) None None
      None None in
  let window := orDefault 0 (tv_window options) in
  let counter0 :=
    generateCounterFromTime (tv_time options) (orDefault 30 (tv_step options)) in
  let gen c :=
    hotpGenerate
      (mkHOTPGenerateOptions (tv_secret options) c (tv_digits options)
         (tv_encoding options) (tv_algorithm options)) in
  totpSafe counter0 window /\
  ((exists c,
       counter0 - window <= c <= counter0 + window /\
       gen c = tv_code options /\
       (forall j, counter0 - window <= j < c -> gen j <> tv_code options) /\
       - window <= c - counter0 <= window /\
       returns (fun fuel => totpVerify64 fuel options)
         {| valid := true; delta := Some (c - counter0) |})
   \/
   ((forall c, counter0 - window <= c <= counter0 + window ->
               gen c <> tv_code options) /\
    returns (fun fuel => totpVerify64 fuel options)
      {| valid := false; delta := None |})).
Proof.
  intros options window counter0 gen.
  assert (Hsafe : totpSafe counter0 window) by safe.
  split; [exact Hsafe|].
  exact (totpVerify_two_sided options Hsafe).
Defined.

Lemma totpVerify_negative_window_witness :
  let options :=
    mkTOTPVerifyOptions rfc4226_secret "287082" (Some (-1)) (Some 59) None None
      None None in
  tv_window options = Some (-1) /\
  -1 < 0 /\
  totpSafe
    (generateCounterFromTime (tv_time options) (orDefault 30 (tv_step options)))
    (-1) /\
  returns (fun fuel => totpVerify64 fuel options)
    {| valid := false; delta := None |}.
Proof.
  intros options.
  assert (Hsafe : totpSafe
                    (generateCounterFromTime (tv_time options)
                       (orDefault 30 (tv_step options))) (-1)) by safe.
  split; [reflexivity|]. split; [reflexivity|]. split; [exact Hsafe|].
  exact (totpVerify_negative_window options (-1) eq_refl eq_refl Hsafe).
Defined.

Lemma totpVerify_accepts_nearby_witness :
  let counter0 := generateCounterFromTime (Some 59) (orDefault 30 None) in
  let counter' := generateCounterFromTime (Some 0) (orDefault 30 None) in
  counter0 - 1 <= counter' <= counter0 + 1 /\
  totpSafe counter0 1 /\
  exists d,
    - 1 <= d <= counter' - counter0 /\
    returns
      (fun fuel =>
         totpVerify64 fuel
           (mkTOTPVerifyOptions rfc4226_secret
              (totpGenerate
                 (mkTOTPGenerateOptions rfc4226_secret (Some 0) None None None
                    None))
              (Some 1) (Some 59) None None None None))
      {| valid := true; delta := Some d |}.
Proof.
  intros counter0 counter'.
  assert (Hnear : counter0 - 1 <= counter' <= counter0 + 1)
    by (vm_compute; split; discriminate).
  assert (Hsafe : totpSafe counter0 1) by safe.
  split; [exact Hnear|]. split; [exact Hsafe|].
  exact (totpVerify_accepts_nearby rfc4226_secret 59 0 None None None None 1
           Hnear Hsafe).
Defined.

Lemma hotpVerify_rejects_wrong_length_witness :
  let options :=
    mkHOTPVerifyOptions rfc4226_secret 0 "0755224" (Some 3) None None None in
  1 <= orDefault 6 (hv_digits options) /\
  (String.length (hv_code options) = 0%nat
   \/ orDefault 6 (hv_digits options) < Z.of_nat (String.length (hv_code options))) /\
  hotpSafe (hv_counter options) (orDefault 0 (hv_window options)) /\
  (forall fuel result,
      hotpVerify64 fuel options = Some result ->
      result = {| valid := false; delta := None |}) /\
  returns (fun fuel => hotpVerify64 fuel options)
    {| valid := false; delta := None |}.
Proof.
  intros options.
  assert (Hdigits : 1 <= orDefault 6 (hv_digits options)) by discriminate.
  assert (Hlength :
            String.length (hv_code options) = 0%nat
            \/ orDefault 6 (hv_digits options)
               < Z.of_nat (String.length (hv_code options)))
    by (right; reflexivity).
  assert (Hsafe : hotpSafe (hv_counter options)
                    (orDefault 0 (hv_window options))) by safe.
  split; [exact Hdigits|]. split; [exact Hlength|]. split; [exact Hsafe|].
  split.
  - exact (proj1 (hotpVerify_rejects_wrong_length options Hdigits Hlength)).
  - exact (proj2 (hotpVerify_rejects_wrong_length options Hdigits Hlength)
             Hsafe).
Defined.

Lemma totpVerify_rejects_wrong_length_witness :
  let options :=
    mkTOTPVerifyOptions rfc4226_secret "" (Some 1) (Some 59) None None None
      None in
  1 <= orDefault 6 (tv_digits options) /\
  (String.length (tv_code options) = 0%nat
   \/ orDefault 6 (tv_digits options) < Z.of_nat (String.length (tv_code options))) /\
  totpSafe
    (generateCounterFromTime (tv_time options) (orDefault 30 (tv_step options)))
    (orDefault 0 (tv_window options)) /\
  (forall fuel result,
      totpVerify64 fuel options = Some result ->
      result = {| valid := false; delta := None |}) /\
  returns (fun fuel => totpVerify64 fuel options)
    {| valid := false; delta := None |}.
Proof.
  intros options.
  assert (Hdigits : 1 <= orDefault 6 (tv_digits options)) by discriminate.
  assert (Hlength :
            String.length (tv_code options) = 0%nat
            \/ orDefault 6 (tv_digits options)
               < Z.of_nat (String.length (tv_code options)))
    by (left; reflexivity).
  assert (Hsafe : totpSafe
                    (generateCounterFromTime (tv_time options)
                       (orDefault 30 (tv_step options)))
                    (orDefault 0 (tv_window options))) by safe.
  split; [exact Hdigits|]. split; [exact Hlength|]. split; [exact Hsafe|].
  split.
  - exact (proj1 (totpVerify_rejects_wrong_length options Hdigits Hlength)).
  - exact (proj2 (totpVerify_rejects_wrong_length options Hdigits Hlength)
             Hsafe).
Defined.

Lemma hotpVerify_rejects_non_digit_witness :
  let options :=
    mkHOTPVerifyOptions rfc4226_secret 0 "75522 " (Some 3) None None None in
  (forall hash, 0 <= dynamicTruncate hash) /\
  forallChars isDecimalDigit (hv_code options) = false /\
  hotpSafe (hv_counter options) (orDefault 0 (hv_window options)) /\
  (forall fuel result,
      hotpVerify64 fuel options = Some result ->
      result = {| valid := false; delta := None |}) /\
  returns (fun fuel => hotpVerify64 fuel options)
    {| valid := false; delta := None |}.
Proof.
  intros options.
  assert (Hcode : forallChars isDecimalDigit (hv_code options) = false)
    by reflexivity.
  assert (Hsafe : hotpSafe (hv_counter options)
                    (orDefault 0 (hv_window options))) by safe.
  split; [exact rfc4226_dynamicTruncate_nonneg|]. split; [exact Hcode|].
  split; [exact Hsafe|]. split.
  - exact (proj1 (hotpVerify_rejects_non_digit options
                    rfc4226_dynamicTruncate_nonneg Hcode)).
  - exact (proj2 (hotpVerify_rejects_non_digit options
                    rfc4226_dynamicTruncate_nonneg Hcode) Hsafe).
Defined.

Lemma totpVerify_window_monotone_witness :
  let counter0 := generateCounterFromTime (Some 119) (orDefault 30 None) in
  1 <= 2 /\
  totpSafe counter0 1 /\
  totpSafe counter0 2 /\
  returns
    (fun fuel =>
       totpVerify64 fuel
         (mkTOTPVerifyOptions rfc4226_secret "359152" (Some 1) (Some 119) None
            None None None))
    {| valid := true; delta := Some (-1) |} /\
  exists d',
    d' <= -1 /\
    returns
      (fun fuel =>
         totpVerify64 fuel
           (mkTOTPVerifyOptions rfc4226_secret "359152" (Some 2) (Some 119)
              None None None None))
      {| valid := true; delta := Some d' |}.
Proof.
  intros counter0.
  assert (Hw : 1 <= 2) by discriminate.
  assert (Hsafe : totpSafe counter0 1) by safe.
  assert (Hsafe' : totpSafe counter0 2) by safe.
  assert (Hnarrow :
            returns
              (fun fuel =>
                 totpVerify64 fuel
                   (mkTOTPVerifyOptions rfc4226_secret "359152" (Some 1)
                      (Some 119) None None None None))
              {| valid := true; delta := Some (-1) |})
    by (exists 4%nat; vm_compute; reflexivity).
  split; [exact Hw|]. split; [exact Hsafe|]. split; [exact Hsafe'|].
  split; [exact Hnarrow|].
  exact (totpVerify_window_monotone rfc4226_secret "359152" 1 2 119 None None
           None None (-1) Hw Hsafe Hsafe' Hnarrow).
Defined.

End Vectors64.
